(** * Extraction pipeline of commis: quality scorer, run ledger, orchestrator

    A shallow embedding of [src/services/extraction-logger.js] and
    [src/services/video-extractor.js], and the properties of the
    specification checked against it.

    Conventions of the embedding:
    - a JavaScript number is an exact rational ([Q]): rounding errors of
      double arithmetic are not modelled; computed numbers are compared
      with [==] ([Qeq]), literals with [=];
    - a property that may be absent, [null] or [undefined] is an [option];
    - strings are [string]; truthiness of a string is "present and non-empty";
    - the log messages built from template literals are kept as constructors
      carrying the interpolated values;
    - wall-clock fields ([startTime], [endTime], [duration]), prompt texts
      and step inputs are left out of the records: nothing branches on them;
      what the building of a prompt can throw is kept ([promptDuration]);
    - the collaborators (file manager, models, ffmpeg, file system) answer
      as an [Env] says; [JSON.parse] with the block around it is one of
      these answers; an answer that the code reads outside any [try] comes
      with the shapes on which the read throws ([Duration], [Extracted]);
      writes of the ledger always succeed;
    - effects are threaded through a state-and-exception monad [M] with a
      third outcome, [Pending], for a readiness poll that is not over; the
      other awaited calls are taken at their settlement, so that nothing is
      stated below about a run that waits for one of them;
    - [Promise.all] settles its three calls one after the other, in array
      order; in the program the three calls are in flight together, which
      permutes the steps of different stages in the log and nothing else
      that is stated below. *)

From Stdlib Require Import QArith Qround Qabs Qminmax Lqa ZArith Lia.
From stdpp Require Import base option list gmap strings.

Open Scope Q_scope.

(** ** Data model *)

(** One selected / materialised frame (the objects of [result.frames]). *)
Record Frame := {
  f_timestamp : option Q;
  f_type : string;
  f_description : string;
  f_priority : string;
  f_path : option string
}.

(** One menu item, as returned by pass 1, pass 2 or the frame-based path. *)
Record MenuItem := {
  mi_name : option string;
  mi_description : option string;
  mi_category : option string;
  mi_price : option Q;
  mi_dietaryTags : list string;
  mi_confidence : option Q;
  mi_needsReview : bool
}.

Record MenuExtraction := {
  me_items : list MenuItem;
  me_verified : bool;
  me_menuStyleNotes : option string
}.

Record InfoConfidence := {
  ic_name : option Q;
  ic_cuisineType : option Q;
  ic_description : option Q
}.

Record RestaurantInfo := {
  ri_name : option string;
  ri_cuisineType : option string;
  ri_description : option string;
  ri_tagline : option string;
  ri_ambiance : option string;
  ri_priceRange : option string;
  ri_features : list string;
  ri_confidence : option InfoConfidence
}.

Record StyleProfile := {
  st_theme : option string;
  st_primaryColor : option string;
  st_secondaryColor : option string;
  st_mood : option string;
  st_fontStyle : option string;
  st_designNotes : option string
}.

Record ExtractionResult := {
  r_frames : list Frame;
  r_menuItems : option MenuExtraction;
  r_restaurantInfo : option RestaurantInfo;
  r_style : option StyleProfile
}.

(** ** JavaScript helpers *)

(** [!!s] for a string-or-null property. *)
Definition truthy (s : option string) : bool :=
  match s with
  | Some v => negb (String.eqb v EmptyString)
  | None => false
  end.

(** [s === lit] for a string-or-absent property. *)
Definition strict_eq (s : option string) (lit : string) : bool :=
  match s with
  | Some v => String.eqb v lit
  | None => false
  end.

(** [x || 0] for a number-or-absent property ([0 || 0] is [0]). *)
Definition or_zero (x : option Q) : Q :=
  match x with
  | Some v => v
  | None => 0
  end.

(** A count used as a number. *)
Definition num (n : nat) : Q := inject_Z (Z.of_nat n).

(** [x >= y] and [x < y] on numbers. *)
Definition num_ge (x y : Q) : bool := Qle_bool y x.
Definition num_lt (x y : Q) : bool := negb (Qle_bool y x).

(** [parseFloat(x.toFixed(2))]: the nearest multiple of 1/100, a tie going
    to the larger magnitude; the sign is handled apart, as [toFixed] does. *)
Definition toFixed2 (x : Q) : Q :=
  let n := Qfloor (Qabs x * 100 + (1 # 2)) in
  if Qle_bool 0 x then inject_Z n / 100 else - (inject_Z n / 100).

(** [[...new Set(l)]]: first occurrences, in insertion order. *)
Fixpoint uniq (l : list string) : list string :=
  match l with
  | [] => []
  | x :: l' => x :: filter (λ y, y ≠ x) (uniq l')
  end.

(** [new Set(l).has(x)]. *)
Definition has (l : list string) (x : string) : bool :=
  existsb (String.eqb x) l.

(** [l.filter(p).length]. *)
Definition count {A} (p : A → bool) (l : list A) : nat :=
  length (List.filter p l).

(** ** Quality scorer ([ExtractionLogger.assessQuality]) *)

Inductive Severity := critical | warning.

Inductive Category := cat_menu | cat_info | cat_frames | cat_style.

(** The message of an issue; the interpolated value is the argument. *)
Inductive Message :=
| NoMenuItemsFound
| OnlyMenuItemsFound (menuCount : nat)
| AllMenuItemsNeedReview
| LowAverageConfidence (avgConfidence : Q)
| NoPricesDetected
| RestaurantNameNotDetected
| LowConfidenceOnName (nameConfidence : Q)
| CuisineTypeNotIdentified
| NoFramesExtracted
| OnlyFramesExtracted (frameCount : nat)
| NoFoodPhotos
| NoExteriorOrInteriorShots
| UsingDefaultStyling.

Record Issue := {
  i_type : Severity;
  i_category : Category;
  i_message : Message
}.

Inductive Rating := good | fair | poor.

Record Scores := {
  sc_menu : Q;
  sc_restaurantInfo : Q;
  sc_frames : Q;
  sc_style : Q
}.

Record Summary := {
  sm_menuItems : nat;
  sm_menuNeedsReview : nat;
  sm_menuAvgConfidence : Q;
  sm_framesExtracted : nat;
  sm_frameTypes : list string;
  sm_hasRestaurantName : bool;
  sm_isDefaultStyle : bool
}.

Record QualityReport := {
  q_rating : Rating;
  q_overall : Q;
  q_scores : Scores;
  q_issues : list Issue;
  q_summary : Summary
}.

Definition is_critical (i : Issue) : bool :=
  match i_type i with
  | critical => true
  | warning => false
  end.

(** [cond ? [issue] : []], the shape of every [if (...) issues.push(...)]. *)
Definition push_if (cond : bool) (i : Issue) : list Issue :=
  if cond then [i] else [].

Section AssessQuality.

Variable result : ExtractionResult.

(** Menu quality *)

Definition menuItems : list MenuItem :=
  match r_menuItems result with
  | Some m => me_items m
  | None => []
  end.

Definition menuCount : nat := length menuItems.

Definition needsReviewCount : nat := count mi_needsReview menuItems.

Definition avgConfidence : Q :=
  if (0 <? menuCount)%nat
  then fold_left (λ sum i, sum + or_zero (mi_confidence i)) menuItems 0
       / num menuCount
  else 0.

Definition itemsWithPrice : nat :=
  count (λ i, bool_decide (is_Some (mi_price i))) menuItems.

Definition scores_menu : Q :=
  Qmin 1 (num menuCount / 5) * 0.4 +
  (1 - num needsReviewCount / num (Nat.max menuCount 1)) * 0.3 +
  avgConfidence * 0.3.

Definition menu_issues : list Issue :=
  (if (menuCount =? 0)%nat
   then [ {| i_type := critical; i_category := cat_menu;
             i_message := NoMenuItemsFound |} ]
   else push_if (menuCount <? 3)%nat
          {| i_type := warning; i_category := cat_menu;
             i_message := OnlyMenuItemsFound menuCount |}) ++
  push_if ((0 <? menuCount)%nat && (needsReviewCount =? menuCount)%nat)
    {| i_type := warning; i_category := cat_menu;
       i_message := AllMenuItemsNeedReview |} ++
  push_if ((0 <? menuCount)%nat && num_lt avgConfidence 0.6)
    {| i_type := warning; i_category := cat_menu;
       i_message := LowAverageConfidence avgConfidence |} ++
  push_if ((0 <? menuCount)%nat && (itemsWithPrice =? 0)%nat)
    {| i_type := warning; i_category := cat_menu;
       i_message := NoPricesDetected |}.

(** Restaurant info quality *)

Definition info_name : option string :=
  r_restaurantInfo result ≫= ri_name.
Definition info_cuisineType : option string :=
  r_restaurantInfo result ≫= ri_cuisineType.
Definition info_description : option string :=
  r_restaurantInfo result ≫= ri_description.

Definition hasName : bool := truthy info_name.

Definition info_confidence : option InfoConfidence :=
  r_restaurantInfo result ≫= ri_confidence.

Definition nameConfidence : Q := or_zero (info_confidence ≫= ic_name).

Definition hasCuisine : bool :=
  truthy info_cuisineType && negb (strict_eq info_cuisineType "Restaurant").

Definition hasDescription : bool :=
  truthy info_description &&
  match info_description with
  | Some d => (20 <? String.length d)%nat
  | None => false
  end.

Definition scores_restaurantInfo : Q :=
  (if hasName then 0.4 else 0) +
  (if hasCuisine then 0.3 else 0) +
  (if hasDescription then 0.3 else 0).

Definition info_issues : list Issue :=
  (if negb hasName
   then [ {| i_type := warning; i_category := cat_info;
             i_message := RestaurantNameNotDetected |} ]
   else push_if (num_lt nameConfidence 0.7)
          {| i_type := warning; i_category := cat_info;
             i_message := LowConfidenceOnName nameConfidence |}) ++
  push_if (negb hasCuisine)
    {| i_type := warning; i_category := cat_info;
       i_message := CuisineTypeNotIdentified |}.

(** Frames quality *)

Definition frames : list Frame := r_frames result.

Definition frameTypes : list string := uniq (f_type <$> frames).

Definition hasFood : bool := has frameTypes "food".
Definition hasExterior : bool := has frameTypes "exterior".
Definition hasInterior : bool := has frameTypes "interior".
Definition hasMenu : bool := has frameTypes "menu".

Definition highPriorityFrames : nat :=
  count (λ f, String.eqb (f_priority f) "high") frames.

Definition scores_frames : Q :=
  (if (8 <=? length frames)%nat then 0.3 else num (length frames) / 8 * 0.3) +
  (if hasFood then 0.2 else 0) +
  (if hasExterior then 0.15 else 0) +
  (if hasInterior then 0.15 else 0) +
  (if (3 <=? highPriorityFrames)%nat then 0.2
   else num highPriorityFrames / 3 * 0.2).

Definition frames_issues : list Issue :=
  (if (length frames =? 0)%nat
   then [ {| i_type := critical; i_category := cat_frames;
             i_message := NoFramesExtracted |} ]
   else push_if (length frames <? 5)%nat
          {| i_type := warning; i_category := cat_frames;
             i_message := OnlyFramesExtracted (length frames) |}) ++
  push_if (negb hasFood)
    {| i_type := warning; i_category := cat_frames;
       i_message := NoFoodPhotos |} ++
  push_if (negb hasExterior && negb hasInterior)
    {| i_type := warning; i_category := cat_frames;
       i_message := NoExteriorOrInteriorShots |}.

(** Style quality *)

Definition isDefaultStyle : bool :=
  strict_eq (r_style result ≫= st_primaryColor) "#2563eb" &&
  strict_eq (r_style result ≫= st_theme) "modern".

Definition scores_style : Q := if isDefaultStyle then 0.3 else 1.

Definition style_issues : list Issue :=
  push_if isDefaultStyle
    {| i_type := warning; i_category := cat_style;
       i_message := UsingDefaultStyling |}.

(** Issues, in the order they are pushed. *)
Definition issues : list Issue :=
  menu_issues ++ info_issues ++ frames_issues ++ style_issues.

(** Overall score *)
Definition overall : Q :=
  scores_menu * 0.35 + scores_restaurantInfo * 0.25 +
  scores_frames * 0.25 + scores_style * 0.15.

(** Quality rating *)
Definition rating : Rating :=
  if existsb is_critical issues then poor
  else if num_ge overall 0.8 && (length issues =? 0)%nat then good
  else if num_ge overall 0.6 then fair
  else poor.

Definition assessQuality : QualityReport :=
  {| q_rating := rating;
     q_overall := toFixed2 overall;
     q_scores :=
       {| sc_menu := toFixed2 scores_menu;
          sc_restaurantInfo := toFixed2 scores_restaurantInfo;
          sc_frames := toFixed2 scores_frames;
          sc_style := toFixed2 scores_style |};
     q_issues := issues;
     q_summary :=
       {| sm_menuItems := menuCount;
          sm_menuNeedsReview := needsReviewCount;
          sm_menuAvgConfidence := toFixed2 avgConfidence;
          sm_framesExtracted := length frames;
          sm_frameTypes := frameTypes;
          sm_hasRestaurantName := hasName;
          sm_isDefaultStyle := isDefaultStyle |} |}.

End AssessQuality.

(** ** Run ledger ([ExtractionLogger]) *)

(** [uuidv4()]: the n-th identifier handed out is [n]; two draws never
    coincide. *)
Definition Uuid := nat.

Inductive Status := running | completed | failed.

Record RemoteFile := {
  rf_name : string;
  rf_uri : string;
  rf_mimeType : string;
  rf_state : string
}.

(** [metadata.format.duration] as the probe reports it: a number of seconds
    or, when the container gives none, a value that is no number (absent, or
    a string such as "N/A"); [duration.toFixed(1)] on such a value throws a
    TypeError, whose message is [msg]. *)
Inductive Duration :=
| Seconds (d : Q)
| NotNumeric (msg : string).

Record VideoMetadata := {
  vm_duration : Duration;
  vm_size : Q
}.

Record Options := {
  opt_outputDir : option string
}.

Record FrameFailure := {
  ff_timestamp : option Q;
  ff_type : string;
  ff_error : string
}.

(** What a step records as its output; the per-stage digests of a parsed
    response (counts, tag lists) are not kept. *)
Inductive StepOutput :=
| UploadOutput (file : RemoteFile) (pollCount : nat)
| MetadataOutput (m : VideoMetadata)
| RawResponse (text : string)
| ParsedOutput (text : string)
| FallbackOutput (text parseError : string)
| FramesOutput (requested extracted : nat) (failures : list FrameFailure).

Record Step := {
  s_id : Uuid;
  s_name : string;
  s_status : Status;
  s_model : option string;
  s_output : option StepOutput;
  s_error : option string;
  s_warnings : list string
}.

(** Values of the free-form metadata object. *)
Inductive MetaVal :=
| MStr (s : string)
| MNum (q : Q)
| MDuration (d : Duration)
| MBool (b : bool)
| MOptions (o : Options)
| MModels (pro flash : string).

Record ExtractionLogger := {
  runId : Uuid;
  steps : list Step;
  metadata : gmap string MetaVal;
  status : Status;
  error : option string;
  result : option ExtractionResult;
  quality : option QualityReport
}.

(** One entry of [index.json]. *)
Record QualityDigest := {
  qd_rating : Rating;
  qd_overall : Q;
  qd_issueCount : nat
}.

Record RunSummary := {
  rs_runId : Uuid;
  rs_status : Status;
  rs_videoPath : option MetaVal;
  rs_stepCount : nat;
  rs_failedSteps : nat;
  rs_quality : option QualityDigest;
  rs_error : option string
}.

(** The [extraction-logs] directory: one file per run and the index file
    ([None] while [index.json] does not exist). Writes always succeed. *)
Record Disk := {
  d_runs : gmap Uuid ExtractionLogger;
  d_index : option (list RunSummary)
}.

Definition is_failed (st : Status) : bool :=
  match st with
  | failed => true
  | _ => false
  end.

Module Logger.

(** [new ExtractionLogger()] with the identifier it drew. *)
Definition new (id : Uuid) : ExtractionLogger :=
  {| runId := id; steps := []; metadata := ∅; status := running;
     error := None; result := None; quality := None |}.

Definition with_steps (lg : ExtractionLogger) (st : list Step) :=
  {| runId := runId lg; steps := st; metadata := metadata lg;
     status := status lg; error := error lg; result := result lg;
     quality := quality lg |}.

(** [{ ...this.metadata, ...data }]: the keys of [data] win. *)
Definition setMetadata (data : gmap string MetaVal) (lg : ExtractionLogger) :=
  {| runId := runId lg; steps := steps lg; metadata := data ∪ metadata lg;
     status := status lg; error := error lg; result := result lg;
     quality := quality lg |}.

(** [startStep]: push a running step; the tracker is the step's position. *)
Definition startStep (id : Uuid) (name : string) (model : option string)
    (lg : ExtractionLogger) : nat * ExtractionLogger :=
  let step := {| s_id := id; s_name := name; s_status := running;
                 s_model := model; s_output := None; s_error := None;
                 s_warnings := [] |} in
  (length (steps lg), with_steps lg (steps lg ++ [step])).

Definition step_setOutput (out : StepOutput) (st : Step) : Step :=
  {| s_id := s_id st; s_name := s_name st; s_status := s_status st;
     s_model := s_model st; s_output := Some out; s_error := s_error st;
     s_warnings := s_warnings st |}.

Definition step_addWarning (w : string) (st : Step) : Step :=
  {| s_id := s_id st; s_name := s_name st; s_status := s_status st;
     s_model := s_model st; s_output := s_output st; s_error := s_error st;
     s_warnings := s_warnings st ++ [w] |}.

Definition step_complete (out : option StepOutput) (st : Step) : Step :=
  {| s_id := s_id st; s_name := s_name st; s_status := completed;
     s_model := s_model st;
     s_output := match out with Some o => Some o | None => s_output st end;
     s_error := s_error st; s_warnings := s_warnings st |}.

Definition step_fail (err : string) (st : Step) : Step :=
  {| s_id := s_id st; s_name := s_name st; s_status := failed;
     s_model := s_model st; s_output := s_output st; s_error := Some err;
     s_warnings := s_warnings st |}.

(** A tracker method applied to the step it closes over. *)
Definition on_step (k : nat) (f : Step → Step) (lg : ExtractionLogger) :=
  with_steps lg (alter f k (steps lg)).

Definition complete (res : ExtractionResult) (lg : ExtractionLogger) :=
  {| runId := runId lg; steps := steps lg; metadata := metadata lg;
     status := completed; error := error lg; result := Some res;
     quality := Some (assessQuality res) |}.

Definition fail (err : string) (lg : ExtractionLogger) :=
  {| runId := runId lg; steps := steps lg; metadata := metadata lg;
     status := failed; error := Some err; result := result lg;
     quality := quality lg |}.

Definition summary (lg : ExtractionLogger) : RunSummary :=
  {| rs_runId := runId lg;
     rs_status := status lg;
     rs_videoPath := metadata lg !! "videoPath";
     rs_stepCount := length (steps lg);
     rs_failedSteps := count (λ s, is_failed (s_status s)) (steps lg);
     rs_quality :=
       match quality lg with
       | Some q => Some {| qd_rating := q_rating q;
                           qd_overall := q_overall q;
                           qd_issueCount := length (q_issues q) |}
       | None => None
       end;
     rs_error := error lg |}.

(** [updateIndex]: the new content of [index.json]. *)
Definition updateIndex (lg : ExtractionLogger)
    (old : option (list RunSummary)) : list RunSummary :=
  let index := default [] old in
  let index := filter (λ r, rs_runId r ≠ runId lg) index in
  let index := summary lg :: index in
  take 100 index.

(** [save]: write [<runId>.json], then the index. *)
Definition save (lg : ExtractionLogger) (d : Disk) : Disk :=
  {| d_runs := <[runId lg := lg]> (d_runs d);
     d_index := Some (updateIndex lg (d_index d)) |}.

(** [load(runId)]: [None] when the file cannot be read (the call throws). *)
Definition load (id : Uuid) (d : Disk) : option ExtractionLogger :=
  d_runs d !! id.

Definition listRuns (d : Disk) : list RunSummary :=
  match d_index d with
  | Some index => index
  | None => []
  end.

End Logger.

Arguments Logger.with_steps lg st /.
Arguments Logger.setMetadata data lg /.
Arguments Logger.startStep id name model lg /.
Arguments Logger.on_step k f lg /.
Arguments Logger.complete res lg /.
Arguments Logger.fail err lg /.
Arguments Logger.save lg d /.

(** ** Orchestrator ([VideoExtractor]) *)

(** *** The collaborators *)

(** A settled promise of a collaborator. *)
Inductive Remote (A : Type) :=
| Resolves (a : A)
| Rejects (e : string).
Arguments Resolves {A} a.
Arguments Rejects {A} e.

(** What the inner [try { JSON.parse ... }] of a stage makes of a response
    text: [WellFormed v] when the block runs through with the decoded [v],
    [Malformed msg] when it throws [msg]. *)
Inductive Parse (A : Type) :=
| WellFormed (v : A)
| Malformed (msg : string).
Arguments WellFormed {A} v.
Arguments Malformed {A} msg.

Record Response (A : Type) := {
  text : string;
  parsed : Parse A
}.
Arguments text {A} r.
Arguments parsed {A} r.

Record ParsedFrames := { pf_frames : option (list Frame) }.

Record ParsedMenu := {
  pm_items : option (list MenuItem);
  pm_menuStyleNotes : option string
}.

(** The object [GeminiVision.extractRestaurantData] is asked for. *)
Record LegacyItem := {
  li_name : option string;
  li_description : option string;
  li_category : option string;
  li_estimatedPrice : option Q
}.

Record Photo := {
  ph_frameIndex : option nat;
  ph_type : string;
  ph_description : string
}.

Record ExtractedData := {
  ed_restaurantName : option string;
  ed_cuisineType : option string;
  ed_description : option string;
  ed_tagline : option string;
  ed_styleTheme : option string;
  ed_primaryColor : option string;
  ed_menuItems : option (list LegacyItem);
  ed_photos : option (list Photo)
}.

(** What [GeminiVision.extractRestaurantData] resolves with, the value of
    [JSON.parse]: [Shaped d], a value the conversion of [extractFrameBased]
    runs through on, read as the object [d]; or [Misshapen msg], a value on
    which the conversion throws a TypeError with message [msg] ([null], or
    [photos] or [menuItems] that are no arrays or hold a [null]). *)
Inductive Extracted :=
| Shaped (d : ExtractedData)
| Misshapen (msg : string).

(** How the collaborators answer during one call of the orchestrator. *)
Record Env := {
  uploadFile : Remote RemoteFile;
  getFile : list (Remote RemoteFile);
  getMetadata : Remote VideoMetadata;
  generateFrames : Remote (Response ParsedFrames);
  generatePass1 : Remote (Response ParsedMenu);
  generatePass2 : list MenuItem → Remote (Response ParsedMenu);
  generateInfo : Remote (Response RestaurantInfo);
  generateStyle : RestaurantInfo → Remote (Response StyleProfile);
  mkdir : Remote unit;
  extractFrameAt : Frame → Remote string;
  deleteFile : Remote unit;
  extractFrames : Remote (list string);
  extractRestaurantData : list string → Remote Extracted
}.

(** *** State and control *)

(** The mutable state the orchestrator works on: the identifier supply, the
    log directory, [this.logger], and the local [file] of [extract]. *)
Record State := {
  x_uuid : Uuid;
  x_disk : Disk;
  x_logger : option ExtractionLogger;
  x_file : option RemoteFile;
  x_released : list string
}.

Inductive Outcome (A : Type) :=
| Returned (a : A)
| Threw (e : string)
| Pending.
Arguments Returned {A} a.
Arguments Threw {A} e.
Arguments Pending {A}.

Definition M (A : Type) : Type := State → Outcome A * State.

Definition ret {A} (a : A) : M A := λ s, (Returned a, s).

Definition throw {A} (e : string) : M A := λ s, (Threw e, s).

Definition bind {A B} (m : M A) (k : A → M B) : M B := λ s,
  match m s with
  | (Returned a, s') => k a s'
  | (Threw e, s') => (Threw e, s')
  | (Pending, s') => (Pending, s')
  end.

Declare Scope js_scope.
Delimit Scope js_scope with js.
Notation "'let*' x := m 'in' k" := (bind m (λ x, k))
  (at level 10, x pattern, m at level 100, k at level 200) : js_scope.
Notation "m ;; k" := (bind m (λ _, k))
  (at level 100, k at level 200, right associativity) : js_scope.

(** [try { m } catch (err) { h err }]. *)
Definition try_catch {A} (m : M A) (h : string → M A) : M A := λ s,
  match m s with
  | (Threw e, s') => h e s'
  | r => r
  end.

(** [try { m } finally { f }]. *)
Definition try_finally {A} (m : M A) (f : M unit) : M A := λ s,
  match m s with
  | (Pending, s') => (Pending, s')
  | (r, s') =>
      match f s' with
      | (Returned _, s'') => (r, s'')
      | (Threw e, s'') => (Threw e, s'')
      | (Pending, s'') => (Pending, s'')
      end
  end.

(** [await p]. *)
Definition await {A} (p : Remote A) : M A := λ s,
  match p with
  | Resolves a => (Returned a, s)
  | Rejects e => (Threw e, s)
  end.

(** [await Promise.all([a, b, c])]: the three calls run in array order,
    each up to its settlement; the join rejects with the first rejection. *)
Definition promise_all3 {A B C} (a : M A) (b : M B) (c : M C) : M (A * B * C) :=
  λ s,
  let '(ra, s1) := a s in
  let '(rb, s2) := b s1 in
  let '(rc, s3) := c s2 in
  match ra, rb, rc with
  | Returned x, Returned y, Returned z => (Returned (x, y, z), s3)
  | Threw e, _, _ => (Threw e, s3)
  | _, Threw e, _ => (Threw e, s3)
  | _, _, Threw e => (Threw e, s3)
  | _, _, _ => (Pending, s3)
  end.

Definition uuidv4 : M Uuid := λ s,
  (Returned (x_uuid s),
   {| x_uuid := S (x_uuid s); x_disk := x_disk s; x_logger := x_logger s;
      x_file := x_file s; x_released := x_released s |}).

Definition set_file (f : option RemoteFile) : M unit := λ s,
  (Returned (),
   {| x_uuid := x_uuid s; x_disk := x_disk s; x_logger := x_logger s;
      x_file := f; x_released := x_released s |}).

Definition TypeError : string := "TypeError: Cannot read properties of null".

(** [this.logger.<method>(...)] for a method that updates the logger. *)
Definition on_logger (f : ExtractionLogger → ExtractionLogger) : M unit := λ s,
  match x_logger s with
  | Some lg =>
      (Returned (),
       {| x_uuid := x_uuid s; x_disk := x_disk s; x_logger := Some (f lg);
          x_file := x_file s; x_released := x_released s |})
  | None => (Threw TypeError, s)
  end.

(** [this.logger = new ExtractionLogger()]. *)
Definition new_logger : M unit := λ s,
  (Returned (),
   {| x_uuid := S (x_uuid s); x_disk := x_disk s;
      x_logger := Some (Logger.new (x_uuid s));
      x_file := x_file s; x_released := x_released s |}).

(** [this.logger.startStep(name, { model })]. *)
Definition startStep (name : string) (model : option string) : M nat :=
  (let* id := uuidv4 in
   λ s, match x_logger s with
        | Some lg =>
            let '(k, lg') := Logger.startStep id name model lg in
            (Returned k,
             {| x_uuid := x_uuid s; x_disk := x_disk s; x_logger := Some lg';
                x_file := x_file s; x_released := x_released s |})
        | None => (Threw TypeError, s)
        end)%js.

Definition step_setOutput (k : nat) (out : StepOutput) : M unit :=
  on_logger (Logger.on_step k (Logger.step_setOutput out)).
Definition step_addWarning (k : nat) (w : string) : M unit :=
  on_logger (Logger.on_step k (Logger.step_addWarning w)).
Definition step_complete (k : nat) (out : option StepOutput) : M unit :=
  on_logger (Logger.on_step k (Logger.step_complete out)).
Definition step_fail (k : nat) (err : string) : M unit :=
  on_logger (Logger.on_step k (Logger.step_fail err)).

(** [await this.logger.save()]. *)
Definition logger_save : M unit := λ s,
  match x_logger s with
  | Some lg =>
      (Returned (),
       {| x_uuid := x_uuid s; x_disk := Logger.save lg (x_disk s);
          x_logger := x_logger s; x_file := x_file s;
          x_released := x_released s |})
  | None => (Threw TypeError, s)
  end.

(** [this.getRunId()]. *)
Definition getRunId (s : State) : option Uuid := runId <$> x_logger s.

(** [x || lit] for a string-or-absent property. *)
Definition or_str (x : option string) (lit : string) : string :=
  match x with
  | Some v => if String.eqb v EmptyString then lit else v
  | None => lit
  end.

(** An outcome that involves no state. *)
Definition settle {A} (o : Outcome A) : M A := λ s, (o, s).

(** [duration.toFixed(1)], evaluated for the prompt of frame selection: the
    number it is called on, or the TypeError. *)
Definition promptDuration (duration : Duration) : M Q :=
  match duration with
  | Seconds d => ret d
  | NotNumeric msg => throw msg
  end.

(** The property reads of the conversion in [extractFrameBased]: the object
    they run through on, or the TypeError. *)
Definition convertible (extractedData : Extracted) : M ExtractedData :=
  match extractedData with
  | Shaped d => ret d
  | Misshapen msg => throw msg
  end.

Definition pro : string := "gemini-3-pro-preview".
Definition flash : string := "gemini-3-flash-preview".

(** Where the frames are written: [options.outputDir], or a fresh directory
    under the images path. *)
Inductive Dir :=
| GivenDir (d : string)
| ImagesDir (id : Uuid).

(** The readiness poll of [uploadVideo]: [polls] are the successive answers
    of [getFile]; the wait is [Pending] while they all say PROCESSING. *)
Fixpoint pollWhileProcessing (file : RemoteFile) (pollCount : nat)
    (polls : list (Remote RemoteFile)) : Outcome (RemoteFile * nat) :=
  if String.eqb (rf_state file) "PROCESSING" then
    match polls with
    | [] => Pending
    | Resolves file' :: polls' => pollWhileProcessing file' (S pollCount) polls'
    | Rejects e :: _ => Threw e
    end
  else Returned (file, pollCount).

(** The evenly spaced frames [selectKeyFrames] substitutes. *)
Definition fallbackFrames (duration : Q) : list Frame :=
  let frameCount := 10%nat in
  let interval := duration / num (frameCount + 1) in
  (λ i, {| f_timestamp := Some (interval * num (i + 1));
           f_type := "unknown";
           f_description := "Auto-selected frame";
           f_priority := "medium";
           f_path := None |}) <$> seq 0 frameCount.

Arguments fallbackFrames : simpl never.

(** [{ ...item, confidence: 0.7, needsReview: true }]. *)
Definition withDefaultConfidence (item : MenuItem) : MenuItem :=
  {| mi_name := mi_name item;
     mi_description := mi_description item;
     mi_category := mi_category item;
     mi_price := mi_price item;
     mi_dietaryTags := mi_dietaryTags item;
     mi_confidence := Some 0.7;
     mi_needsReview := true |}.

(** The record [extractRestaurantInfo] substitutes. *)
Definition fallbackInfo : RestaurantInfo :=
  {| ri_name := None;
     ri_cuisineType := Some "Restaurant";
     ri_description := Some "A local restaurant.";
     ri_tagline := Some "Great food, great experience.";
     ri_ambiance := Some "casual";
     ri_priceRange := Some "$$";
     ri_features := [];
     ri_confidence := Some {| ic_name := Some 0;
                              ic_cuisineType := Some 0.5;
                              ic_description := Some 0.5 |} |}.

(** The record [extractStyle] substitutes. *)
Definition fallbackStyle : StyleProfile :=
  {| st_theme := Some "modern";
     st_primaryColor := Some "#2563eb";
     st_secondaryColor := Some "#f59e0b";
     st_mood := Some "warm";
     st_fontStyle := Some "sans-serif";
     st_designNotes := Some "Default styling applied" |}.

Section Pipeline.

Variable env : Env.

Open Scope js_scope.

Definition uploadVideo (videoPath : string) : M RemoteFile :=
  let* step := startStep "upload_video" None in
  try_catch
    (let* uploaded := await (uploadFile env) in
     let* (file, pollCount) :=
       settle (pollWhileProcessing uploaded 0 (getFile env)) in
     if String.eqb (rf_state file) "FAILED"
     then throw "Video processing failed in Gemini File API"
     else (step_complete step (Some (UploadOutput file pollCount)) ;;
           ret file))
    (λ err, step_fail step err ;; throw err).

(** The prompt of [selectKeyFrames] is built first, before the step is
    started and outside the [try]: [duration.toFixed(1)] throws when the
    duration is no number. *)
Definition selectKeyFrames (file : RemoteFile) (duration : Duration)
    : M (list Frame) :=
  let* duration := promptDuration duration in
  let* step := startStep "select_key_frames" (Some pro) in
  try_catch
    (let* r := await (generateFrames env) in
     step_setOutput step (RawResponse (text r)) ;;
     match parsed r with
     | WellFormed p =>
         let frames := default [] (pf_frames p) in
         step_complete step (Some (ParsedOutput (text r))) ;;
         ret frames
     | Malformed msg =>
         step_addWarning step ("JSON parse failed: " +:+ msg) ;;
         step_complete step (Some (FallbackOutput (text r) msg)) ;;
         ret (fallbackFrames duration)
     end)
    (λ err, step_fail step err ;; throw err).

(** Pass 1 of [extractMenuTwoPass]: [inl] carries on to the rest of the
    function, [inr] is the [return] inside the parse handler. *)
Definition menuPass1 (file : RemoteFile)
    : M (list MenuItem * string + MenuExtraction) :=
  let* pass1Step := startStep "menu_extraction_pass1" (Some pro) in
  try_catch
    (let* r := await (generatePass1 env) in
     match parsed r with
     | WellFormed p =>
         let items := default [] (pm_items p) in
         let menuStyleNotes := or_str (pm_menuStyleNotes p) EmptyString in
         step_complete pass1Step (Some (ParsedOutput (text r))) ;;
         ret (inl (items, menuStyleNotes))
     | Malformed msg =>
         step_addWarning pass1Step ("JSON parse failed: " +:+ msg) ;;
         step_complete pass1Step (Some (FallbackOutput (text r) msg)) ;;
         ret (inr {| me_items := []; me_verified := false;
                     me_menuStyleNotes := None |})
     end)
    (λ err, step_fail pass1Step err ;; throw err).

Definition menuPass2 (file : RemoteFile) (items : list MenuItem)
    (menuStyleNotes : string) : M MenuExtraction :=
  let* pass2Step := startStep "menu_extraction_pass2" (Some pro) in
  try_catch
    (let* r := await (generatePass2 env items) in
     match parsed r with
     | WellFormed p =>
         let verifiedItems := default [] (pm_items p) in
         step_complete pass2Step (Some (ParsedOutput (text r))) ;;
         ret {| me_items := verifiedItems; me_verified := true;
                me_menuStyleNotes := Some menuStyleNotes |}
     | Malformed msg =>
         step_addWarning pass2Step ("JSON parse failed: " +:+ msg) ;;
         step_complete pass2Step (Some (FallbackOutput (text r) msg)) ;;
         ret {| me_items := withDefaultConfidence <$> items;
                me_verified := false;
                me_menuStyleNotes := Some menuStyleNotes |}
     end)
    (λ err,
       step_fail pass2Step err ;;
       ret {| me_items := withDefaultConfidence <$> items;
              me_verified := false;
              me_menuStyleNotes := Some menuStyleNotes |}).

Definition extractMenuTwoPass (file : RemoteFile) : M MenuExtraction :=
  let* pass1 := menuPass1 file in
  match pass1 with
  | inr early => ret early
  | inl (items, menuStyleNotes) =>
      if (length items =? 0)%nat
      then ret {| me_items := []; me_verified := true;
                  me_menuStyleNotes := Some menuStyleNotes |}
      else menuPass2 file items menuStyleNotes
  end.

Definition extractRestaurantInfo (file : RemoteFile) : M RestaurantInfo :=
  let* step := startStep "extract_restaurant_info" (Some pro) in
  try_catch
    (let* r := await (generateInfo env) in
     match parsed r with
     | WellFormed p =>
         step_complete step (Some (ParsedOutput (text r))) ;;
         ret p
     | Malformed msg =>
         step_addWarning step ("JSON parse failed: " +:+ msg) ;;
         step_complete step (Some (FallbackOutput (text r) msg)) ;;
         ret fallbackInfo
     end)
    (λ err, step_fail step err ;; throw err).

Definition extractStyle (file : RemoteFile) (restaurantInfo : RestaurantInfo)
    : M StyleProfile :=
  let* step := startStep "extract_style" (Some flash) in
  try_catch
    (let* r := await (generateStyle env restaurantInfo) in
     match parsed r with
     | WellFormed p =>
         step_complete step (Some (ParsedOutput (text r))) ;;
         ret p
     | Malformed msg =>
         step_addWarning step ("JSON parse failed: " +:+ msg) ;;
         step_complete step (Some (FallbackOutput (text r) msg)) ;;
         ret fallbackStyle
     end)
    (λ err, step_fail step err ;; throw err).

(** The loop of [extractFramesFromTimestamps]: the frames written and the
    failures, both in the order of [frames]. A frame without a numeric
    timestamp fails at [frame.timestamp.toFixed]. *)
Fixpoint materialise (frames : list Frame) : list Frame * list FrameFailure :=
  match frames with
  | [] => ([], [])
  | frame :: rest =>
      let '(extractedFrames, failures) := materialise rest in
      let failure err :=
        {| ff_timestamp := f_timestamp frame; ff_type := f_type frame;
           ff_error := err |} in
      match f_timestamp frame with
      | None => (extractedFrames, failure TypeError :: failures)
      | Some _ =>
          match extractFrameAt env frame with
          | Resolves outputPath =>
              ({| f_timestamp := f_timestamp frame;
                  f_type := f_type frame;
                  f_description := f_description frame;
                  f_priority := f_priority frame;
                  f_path := Some outputPath |} :: extractedFrames,
               failures)
          | Rejects err => (extractedFrames, failure err :: failures)
          end
      end
  end.

Definition extractFramesFromTimestamps (videoPath : string)
    (frames : list Frame) (outputDir : Dir) : M (list Frame) :=
  let* step := startStep "extract_frames" None in
  try_catch
    (await (mkdir env) ;;
     let '(extractedFrames, failures) := materialise frames in
     step_complete step
       (Some (FramesOutput (length frames) (length extractedFrames)
                failures)) ;;
     ret extractedFrames)
    (λ err, step_fail step err ;; throw err).

Definition cleanup (file : RemoteFile) : M unit :=
  try_catch
    (await (deleteFile env) ;;
     λ s, (Returned (),
           {| x_uuid := x_uuid s; x_disk := x_disk s;
              x_logger := x_logger s; x_file := x_file s;
              x_released := rf_name file :: x_released s |}))
    (λ _, ret ()).

Definition extract (videoPath : string) (options : Options)
    : M ExtractionResult :=
  new_logger ;;
  on_logger (Logger.setMetadata
               {[ "videoPath" := MStr videoPath;
                  "options" := MOptions options;
                  "models" := MModels pro flash ]}) ;;
  set_file None ;;
  try_finally
    (try_catch
       (let* file := uploadVideo videoPath in
        set_file (Some file) ;;
        let* metadataStep := startStep "get_metadata" None in
        let* metadata :=
          try_catch
            (let* m := await (getMetadata env) in
             step_complete metadataStep (Some (MetadataOutput m)) ;;
             ret m)
            (λ err, step_fail metadataStep err ;; throw err) in
        on_logger (Logger.setMetadata
                     {[ "videoDuration" := MDuration (vm_duration metadata);
                        "videoSize" := MNum (vm_size metadata) ]}) ;;
        let* (frames, menuResult, info) :=
          promise_all3
            (selectKeyFrames file (vm_duration metadata))
            (extractMenuTwoPass file)
            (extractRestaurantInfo file) in
        let* style := extractStyle file info in
        let* outputDir :=
          (if truthy (opt_outputDir options)
           then ret (GivenDir (or_str (opt_outputDir options) EmptyString))
           else (let* id := uuidv4 in ret (ImagesDir id))) in
        let* extractedFrames :=
          extractFramesFromTimestamps videoPath frames outputDir in
        let result :=
          {| r_frames := extractedFrames;
             r_menuItems := Some menuResult;
             r_restaurantInfo := Some info;
             r_style := Some style |} in
        on_logger (Logger.complete result) ;;
        logger_save ;;
        ret result)
       (λ err, on_logger (Logger.fail err) ;; logger_save ;; throw err))
    (λ s, match x_file s with
          | Some file => try_catch (cleanup file) (λ _, ret ()) s
          | None => (Returned (), s)
          end).

(** [frames[photo.frameIndex] || frames[i]]. *)
Definition photoPath (frames : list string) (i : nat) (photo : Photo)
    : option string :=
  match ph_frameIndex photo ≫= (λ k, frames !! k) with
  | Some p => if String.eqb p EmptyString then frames !! i else Some p
  | None => frames !! i
  end.

Definition extractFrameBased (videoPath : string) (options : Options)
    : M ExtractionResult :=
  let* frames := await (extractFrames env) in
  let* extractedData := await (extractRestaurantData env frames) in
  let* extractedData := convertible extractedData in
  ret {| r_frames :=
           match ed_photos extractedData with
           | Some photos =>
               imap (λ i photo,
                       {| f_timestamp := None;
                          f_type := ph_type photo;
                          f_description := ph_description photo;
                          f_priority := "medium";
                          f_path := photoPath frames i photo |}) photos
           | None => []
           end;
         r_menuItems :=
           Some {| me_items :=
                     match ed_menuItems extractedData with
                     | Some l =>
                         (λ item,
                            {| mi_name := li_name item;
                               mi_description := li_description item;
                               mi_category :=
                                 Some (or_str (li_category item) "Main Dishes");
                               mi_price := li_estimatedPrice item;
                               mi_dietaryTags := [];
                               mi_confidence := Some 0.7;
                               mi_needsReview := true |}) <$> l
                     | None => []
                     end;
                   me_verified := false;
                   me_menuStyleNotes := None |};
         r_restaurantInfo :=
           Some {| ri_name := ed_restaurantName extractedData;
                   ri_cuisineType := ed_cuisineType extractedData;
                   ri_description := ed_description extractedData;
                   ri_tagline := ed_tagline extractedData;
                   ri_ambiance := Some "casual";
                   ri_priceRange := Some "$$";
                   ri_features := [];
                   ri_confidence := None |};
         r_style :=
           Some {| st_theme := Some (or_str (ed_styleTheme extractedData) "modern");
                   st_primaryColor :=
                     Some (or_str (ed_primaryColor extractedData) "#2563eb");
                   st_secondaryColor := Some "#f59e0b";
                   st_mood := Some "warm";
                   st_fontStyle := Some "sans-serif";
                   st_designNotes := None |} |}.

(** [extractWithFallback]; the returned pair is [{ ...result, runId }]. *)
Definition extractWithFallback (videoPath : string) (options : Options)
    : M (ExtractionResult * option Uuid) :=
  try_catch
    (let* result := extract videoPath options in
     λ s, (Returned (result, getRunId s), s))
    (λ error,
       new_logger ;;
       on_logger (Logger.setMetadata
                    {[ "videoPath" := MStr videoPath;
                       "options" := MOptions options;
                       "usedFallback" := MBool true;
                       "nativeError" := MStr error ]}) ;;
       try_catch
         (let* result := extractFrameBased videoPath options in
          on_logger (Logger.complete result) ;;
          logger_save ;;
          λ s, (Returned (result, getRunId s), s))
         (λ fallbackErr,
            on_logger (Logger.fail fallbackErr) ;;
            logger_save ;;
            throw fallbackErr)).

End Pipeline.

(** * Reference definitions and sample inputs *)

(** The five style fields as a tuple, and the tuple of the fallback style. *)
Definition styleTuple (result : ExtractionResult) :=
  (r_style result ≫= st_theme,
   r_style result ≫= st_primaryColor,
   r_style result ≫= st_secondaryColor,
   r_style result ≫= st_mood,
   r_style result ≫= st_fontStyle).

Definition defaultTuple :=
  (st_theme fallbackStyle, st_primaryColor fallbackStyle,
   st_secondaryColor fallbackStyle, st_mood fallbackStyle,
   st_fontStyle fallbackStyle).

(** A brand style that keeps the default primary colour and theme only. *)
Definition halfDefaultStyle : ExtractionResult :=
  {| r_frames := [];
     r_menuItems := None;
     r_restaurantInfo := None;
     r_style :=
       Some {| st_theme := Some "modern";
               st_primaryColor := Some "#2563eb";
               st_secondaryColor := Some "#111827";
               st_mood := Some "cool";
               st_fontStyle := Some "serif";
               st_designNotes := Some "Monochrome signage" |} |}.

(** An issue list holds a critical issue. *)
Definition has_critical (l : list Issue) : Prop :=
  ∃ i, i ∈ l ∧ i_type i = critical.

(** The mean of a list of numbers, 0 for the empty list. *)
Definition mean (l : list Q) : Q :=
  match l with
  | [] => 0
  | _ => fold_right Qplus 0 l / num (length l)
  end.

(** The menu score as the specification words it. *)
Definition menuScore_spec (itemCount needsReviewCount : nat) (avgConf : Q) : Q :=
  0.4 * Qmin 1 (num itemCount / 5) +
  0.3 * (1 - num needsReviewCount / num (Nat.max itemCount 1)) +
  0.3 * avgConf.

(** A result with nothing in it. *)
Definition emptyResult : ExtractionResult :=
  {| r_frames := []; r_menuItems := None; r_restaurantInfo := None;
     r_style := None |}.

Definition dish (name : string) (conf : Q) (review : bool) : MenuItem :=
  {| mi_name := Some name; mi_description := None;
     mi_category := Some "Mains"; mi_price := Some 12;
     mi_dietaryTags := []; mi_confidence := Some conf;
     mi_needsReview := review |}.

Definition shot (type priority : string) : Frame :=
  {| f_timestamp := Some 1; f_type := type; f_description := "Sample shot";
     f_priority := priority; f_path := Some "frame.jpg" |}.

(** The three verified items of the worked example of the menu score. *)
Definition threeItems : ExtractionResult :=
  {| r_frames := [];
     r_menuItems :=
       Some {| me_items := [dish "Margherita" 0.9 false;
                            dish "Tiramisu" 0.4 true;
                            dish "Lasagne" 0.8 false];
               me_verified := true;
               me_menuStyleNotes := Some "Printed menu" |};
     r_restaurantInfo := None;
     r_style := None |}.

(** A result without any issue whose overall score is 0.798875. *)
Definition nearlyGood : ExtractionResult :=
  {| r_frames := [shot "food" "medium"; shot "exterior" "medium";
                  shot "menu" "medium"; shot "signage" "low";
                  shot "staff" "low"];
     r_menuItems :=
       Some {| me_items := [dish "Margherita" 0.9 false;
                            dish "Lasagne" 0.9 false;
                            dish "Tiramisu" 0.9 false;
                            dish "Bruschetta" 0.9 false;
                            dish "Espresso" 0.9 false];
               me_verified := true;
               me_menuStyleNotes := Some "Printed menu" |};
     r_restaurantInfo :=
       Some {| ri_name := Some "Luigi's";
               ri_cuisineType := Some "Italian";
               ri_description := Some "Family trattoria.";
               ri_tagline := None; ri_ambiance := Some "casual";
               ri_priceRange := Some "$$"; ri_features := [];
               ri_confidence := Some {| ic_name := Some 0.9;
                                        ic_cuisineType := Some 0.9;
                                        ic_description := Some 0.9 |} |};
     r_style :=
       Some {| st_theme := Some "rustic";
               st_primaryColor := Some "#7c2d12";
               st_secondaryColor := Some "#f59e0b";
               st_mood := Some "warm";
               st_fontStyle := Some "serif";
               st_designNotes := None |} |}.

(** The numeric timestamps of a frame list. *)
Definition timestamps (l : list Frame) : list Q := omap f_timestamp l.

(** Sample collaborators: everything resolves and parses. *)
Definition readyFile : RemoteFile :=
  {| rf_name := "files/abc"; rf_uri := "https://files/abc";
     rf_mimeType := "video/mp4"; rf_state := "ACTIVE" |}.

Definition respond {A} (v : A) : Remote (Response A) :=
  Resolves {| text := "{}"; parsed := WellFormed v |}.

Definition garbled {A} : Remote (Response A) :=
  Resolves {| text := "Sorry, I cannot help with that.";
              parsed := Malformed "Unexpected token S in JSON" |}.

Definition rawDish (name : string) : MenuItem :=
  {| mi_name := Some name; mi_description := None;
     mi_category := Some "Mains"; mi_price := Some 12;
     mi_dietaryTags := []; mi_confidence := None;
     mi_needsReview := false |}.

Definition calmEnv : Env :=
  {| uploadFile := Resolves readyFile;
     getFile := [];
     getMetadata :=
       Resolves {| vm_duration := Seconds 30; vm_size := 1048576 |};
     generateFrames :=
       respond {| pf_frames :=
                    Some [{| f_timestamp := Some 3; f_type := "food";
                             f_description := "Pizza close-up";
                             f_priority := "high"; f_path := None |}] |};
     generatePass1 :=
       respond {| pm_items := Some [rawDish "Margherita"; rawDish "Lasagne"];
                  pm_menuStyleNotes := Some "Chalkboard menu" |};
     generatePass2 := λ items,
       respond {| pm_items := Some [dish "Margherita" 0.9 false;
                                    dish "Lasagne" 0.8 false];
                  pm_menuStyleNotes := None |};
     generateInfo := respond fallbackInfo;
     generateStyle := λ _, respond fallbackStyle;
     mkdir := Resolves ();
     extractFrameAt := λ _, Resolves "frame.jpg";
     deleteFile := Resolves ();
     extractFrames := Resolves ["frame_0001.jpg"; "frame_0002.jpg"];
     extractRestaurantData := λ _,
       Resolves
         (Shaped
            {| ed_restaurantName := Some "Luigi's";
               ed_cuisineType := Some "Italian";
               ed_description := Some "Family trattoria.";
               ed_tagline := None;
               ed_styleTheme := None;
               ed_primaryColor := None;
               ed_menuItems :=
                 Some [{| li_name := Some "Margherita";
                          li_description := None;
                          li_category := None;
                          li_estimatedPrice := Some 12 |}];
               ed_photos :=
                 Some [{| ph_frameIndex := Some 1%nat; ph_type := "food";
                          ph_description := "Pizza" |}] |}) |}.

(** [calmEnv] with some collaborators replaced. *)
Definition withFrames (g : Remote (Response ParsedFrames)) (e : Env) : Env :=
  {| uploadFile := uploadFile e; getFile := getFile e;
     getMetadata := getMetadata e; generateFrames := g;
     generatePass1 := generatePass1 e; generatePass2 := generatePass2 e;
     generateInfo := generateInfo e; generateStyle := generateStyle e;
     mkdir := mkdir e; extractFrameAt := extractFrameAt e;
     deleteFile := deleteFile e; extractFrames := extractFrames e;
     extractRestaurantData := extractRestaurantData e |}.

Definition withPass1 (g : Remote (Response ParsedMenu)) (e : Env) : Env :=
  {| uploadFile := uploadFile e; getFile := getFile e;
     getMetadata := getMetadata e; generateFrames := generateFrames e;
     generatePass1 := g; generatePass2 := generatePass2 e;
     generateInfo := generateInfo e; generateStyle := generateStyle e;
     mkdir := mkdir e; extractFrameAt := extractFrameAt e;
     deleteFile := deleteFile e; extractFrames := extractFrames e;
     extractRestaurantData := extractRestaurantData e |}.

Definition withPass2 (g : Remote (Response ParsedMenu)) (e : Env) : Env :=
  {| uploadFile := uploadFile e; getFile := getFile e;
     getMetadata := getMetadata e; generateFrames := generateFrames e;
     generatePass1 := generatePass1 e; generatePass2 := λ _, g;
     generateInfo := generateInfo e; generateStyle := generateStyle e;
     mkdir := mkdir e; extractFrameAt := extractFrameAt e;
     deleteFile := deleteFile e; extractFrames := extractFrames e;
     extractRestaurantData := extractRestaurantData e |}.


(** A fresh orchestrator: no run yet, an empty log directory. *)
Definition emptyDisk : Disk := {| d_runs := ∅; d_index := None |}.

Definition initial : State :=
  {| x_uuid := 0%nat; x_disk := emptyDisk; x_logger := None; x_file := None;
     x_released := [] |}.

(** An orchestrator in the middle of a run. *)
Definition midRun : State :=
  {| x_uuid := 1%nat; x_disk := emptyDisk;
     x_logger := Some (Logger.new 0%nat);
     x_file := Some readyFile; x_released := [] |}.

(** The mark of the fallback-confidence path on a menu extraction. *)
Definition defaultConfidence (m : MenuExtraction) : Prop :=
  Forall (λ i, mi_confidence i = Some 0.7 ∧ mi_needsReview i = true)
    (me_items m) ∧
  me_verified m = false.

(** A sequence of saves, oldest first. *)
Definition saveAll (saves : list ExtractionLogger) (d : Disk) : Disk :=
  fold_left (λ d lg, Logger.save lg d) saves d.

(** "Most recent first, one entry per run": of a list of summaries ordered
    most recent first, keep the first entry of every run identifier. *)
Fixpoint firstPerRun (l : list RunSummary) : list RunSummary :=
  match l with
  | [] => []
  | r :: l' => r :: filter (λ x, rs_runId x ≠ rs_runId r) (firstPerRun l')
  end.

Definition recentRuns (saves : list ExtractionLogger) : list RunSummary :=
  take 100 (firstPerRun (Logger.summary <$> reverse saves)).

(** *** Outcomes of the collaborators, as the orchestrator meets them *)

Definition rejects {A} (p : Remote A) : bool :=
  match p with
  | Rejects _ => true
  | Resolves _ => false
  end.

(** The upload with its readiness poll. *)
Definition uploaded (env : Env) : Outcome RemoteFile :=
  match uploadFile env with
  | Rejects e => Threw e
  | Resolves f =>
      match pollWhileProcessing f 0 (getFile env) with
      | Returned (file, _) =>
          if String.eqb (rf_state file) "FAILED"
          then Threw "Video processing failed in Gemini File API"
          else Returned file
      | Threw e => Threw e
      | Pending => Pending
      end
  end.

(** The restaurant info the style call is given when the info call
    resolves. *)
Definition infoContext (env : Env) : RestaurantInfo :=
  match generateInfo env with
  | Resolves r =>
      match parsed r with
      | WellFormed p => p
      | Malformed _ => fallbackInfo
      end
  | Rejects _ => fallbackInfo
  end.



(** The probe resolves, with a duration that is no number. *)
Definition noDuration (g : Remote VideoMetadata) : bool :=
  match g with
  | Resolves {| vm_duration := NotNumeric _ |} => true
  | _ => false
  end.

(** What makes [extract] throw: the upload, the metadata probe, a duration
    that is no number, the analyze calls except pass 2, and the creation of
    the output directory. *)
Definition primaryThrows (env : Env) : bool :=
  match uploaded env with
  | Threw _ => true
  | Pending => false
  | Returned _ =>
      rejects (getMetadata env) || noDuration (getMetadata env) ||
      rejects (generateFrames env) || rejects (generatePass1 env) ||
      rejects (generateInfo env) ||
      rejects (generateStyle env (infoContext env)) ||
      rejects (mkdir env)
  end.

(** Every section of the result is there. *)
Definition isComplete (res : ExtractionResult) : Prop :=
  is_Some (r_menuItems res) ∧ is_Some (r_restaurantInfo res) ∧
  is_Some (r_style res).

(** The run the orchestrator is left with, and its terminal status. *)
Definition finalStatus (s : State) : option Status := status <$> x_logger s.

(** *** What each stage returns, read off the collaborators' answers *)

Definition framesOutcome (env : Env) (duration : Duration)
    : Outcome (list Frame) :=
  match duration with
  | NotNumeric msg => Threw msg
  | Seconds d =>
      match generateFrames env with
      | Rejects e => Threw e
      | Resolves r =>
          match parsed r with
          | WellFormed p => Returned (default [] (pf_frames p))
          | Malformed _ => Returned (fallbackFrames d)
          end
      end
  end.

Definition menuOutcome (env : Env) : Outcome MenuExtraction :=
  match generatePass1 env with
  | Rejects e => Threw e
  | Resolves r =>
      match parsed r with
      | Malformed _ =>
          Returned {| me_items := []; me_verified := false;
                      me_menuStyleNotes := None |}
      | WellFormed p =>
          let items := default [] (pm_items p) in
          let notes := Some (or_str (pm_menuStyleNotes p) EmptyString) in
          if (length items =? 0)%nat
          then Returned {| me_items := []; me_verified := true;
                           me_menuStyleNotes := notes |}
          else
            match generatePass2 env items with
            | Resolves {| parsed := WellFormed p2 |} =>
                Returned {| me_items := default [] (pm_items p2);
                            me_verified := true;
                            me_menuStyleNotes := notes |}
            | _ =>
                Returned {| me_items := withDefaultConfidence <$> items;
                            me_verified := false;
                            me_menuStyleNotes := notes |}
            end
      end
  end.

Definition infoOutcome (env : Env) : Outcome RestaurantInfo :=
  match generateInfo env with
  | Rejects e => Threw e
  | Resolves _ => Returned (infoContext env)
  end.

Definition styleOutcome (env : Env) (info : RestaurantInfo)
    : Outcome StyleProfile :=
  match generateStyle env info with
  | Rejects e => Threw e
  | Resolves r =>
      match parsed r with
      | WellFormed p => Returned p
      | Malformed _ => Returned fallbackStyle
      end
  end.

Definition materialiseOutcome (env : Env) (frames : list Frame)
    : Outcome (list Frame) :=
  match mkdir env with
  | Rejects e => Threw e
  | Resolves _ => Returned (materialise env frames).1
  end.

(** A stage works on the run at hand: it draws identifiers and rewrites the
    step log, nothing else. *)
Definition sameRun (s s' : State) : Prop :=
  ∃ lg st u',
    x_logger s = Some lg ∧ (x_uuid s ≤ u')%nat ∧
    s' = {| x_uuid := u'; x_disk := x_disk s;
            x_logger := Some (Logger.with_steps lg st);
            x_file := x_file s; x_released := x_released s |}.


(** The join of [Promise.all] on three settled outcomes. *)
Definition join3 {A B C} (a : Outcome A) (b : Outcome B) (c : Outcome C)
    : Outcome (A * B * C) :=
  match a, b, c with
  | Returned x, Returned y, Returned z => Returned (x, y, z)
  | Threw e, _, _ => Threw e
  | _, Threw e, _ => Threw e
  | _, _, Threw e => Threw e
  | _, _, _ => Pending
  end.

(** What [extract] returns or throws, read off the collaborators' answers. *)
Definition primaryOutcome (env : Env) : Outcome ExtractionResult :=
  match uploaded env with
  | Returned file =>
      match getMetadata env with
      | Rejects e => Threw e
      | Resolves m =>
          match join3 (framesOutcome env (vm_duration m)) (menuOutcome env)
                  (infoOutcome env) with
          | Returned (frames, menuResult, info) =>
              match styleOutcome env info with
              | Returned style =>
                  match materialiseOutcome env frames with
                  | Returned extractedFrames =>
                      Returned {| r_frames := extractedFrames;
                                  r_menuItems := Some menuResult;
                                  r_restaurantInfo := Some info;
                                  r_style := Some style |}
                  | Threw e => Threw e
                  | Pending => Pending
                  end
              | Threw e => Threw e
              | Pending => Pending
              end
          | Threw e => Threw e
          | Pending => Pending
          end
      end
  | Threw e => Threw e
  | Pending => Pending
  end.

(** What the frame-based pipeline returns or throws; it touches no state. *)
Definition fallbackOutcome (env : Env) (videoPath : string) (options : Options)
    : Outcome ExtractionResult :=
  (extractFrameBased env videoPath options initial).1.

Definition sampleOptions : Options := {| opt_outputDir := None |}.

(** Runs used as examples: pass 2 is rejected; the metadata probe fails;
    the frame-selection call is rejected. *)
Definition pass2Down : Env :=
  withPass2 (Rejects "503 Service Unavailable") calmEnv.


Definition framesDown : Env :=
  withFrames (Rejects "503 Service Unavailable") calmEnv.


(** * Further reference definitions *)

(** Every item confidence is a number between 0 and 1. *)
Definition confidencesInUnit (result : ExtractionResult) : Prop :=
  Forall (λ i, 0 <= or_zero (mi_confidence i) ∧ or_zero (mi_confidence i) <= 1)
    (menuItems result).

(** A menu item with an implausible confidence. *)
Definition overconfident : ExtractionResult :=
  {| r_frames := [];
     r_menuItems :=
       Some {| me_items := [dish "Margherita" 5 false];
               me_verified := true;
               me_menuStyleNotes := None |};
     r_restaurantInfo := None;
     r_style := None |}.

(** The conditions under which [assessQuality] pushes no issue. *)
Definition flawless (result : ExtractionResult) : Prop :=
  (3 ≤ menuCount result)%nat ∧
  needsReviewCount result ≠ menuCount result ∧
  0.6 <= avgConfidence result ∧
  itemsWithPrice result ≠ 0%nat ∧
  hasName result = true ∧
  0.7 <= nameConfidence result ∧
  hasCuisine result = true ∧
  (5 ≤ length (frames result))%nat ∧
  hasFood result = true ∧
  (hasExterior result = true ∨ hasInterior result = true) ∧
  isDefaultStyle result = false.

(** A model call that resolved with a response that parsed. *)
Definition parsedWell {A} (r : Remote (Response A)) : Prop :=
  ∃ t v, r = Resolves {| text := t; parsed := WellFormed v |}.

(** The items pass 1 hands to pass 2. *)
Definition pass1Items (env : Env) : list MenuItem :=
  match generatePass1 env with
  | Resolves {| parsed := WellFormed p |} => default [] (pm_items p)
  | _ => []
  end.

(** Every model call of the primary pipeline parsed. *)
Definition allParsed (env : Env) : Prop :=
  parsedWell (generateFrames env) ∧
  parsedWell (generatePass1 env) ∧
  parsedWell (generatePass2 env (pass1Items env)) ∧
  parsedWell (generateInfo env) ∧
  parsedWell (generateStyle env (infoContext env)).

(** [calmEnv] with a style that is not the default and a rich answer
    everywhere: the run is rated good. *)
Definition brightEnv : Env :=
  {| uploadFile := Resolves readyFile;
     getFile := [];
     getMetadata :=
       Resolves {| vm_duration := Seconds 30; vm_size := 1048576 |};
     generateFrames := respond {| pf_frames := Some (r_frames nearlyGood ++
                                    [shot "interior" "high";
                                     shot "food" "high";
                                     shot "ambiance" "high"]) |};
     generatePass1 :=
       respond {| pm_items := Some [rawDish "Margherita"];
                  pm_menuStyleNotes := None |};
     generatePass2 := λ _,
       respond {| pm_items := me_items <$> r_menuItems nearlyGood;
                  pm_menuStyleNotes := None |};
     generateInfo :=
       respond {| ri_name := Some "Luigi's";
                  ri_cuisineType := Some "Italian";
                  ri_description :=
                    Some "A family trattoria with a wood-fired oven.";
                  ri_tagline := None; ri_ambiance := Some "casual";
                  ri_priceRange := Some "$$"; ri_features := [];
                  ri_confidence := Some {| ic_name := Some 0.9;
                                           ic_cuisineType := Some 0.9;
                                           ic_description := Some 0.9 |} |};
     generateStyle := λ _,
       respond {| st_theme := Some "rustic";
                  st_primaryColor := Some "#7c2d12";
                  st_secondaryColor := Some "#f59e0b";
                  st_mood := Some "warm";
                  st_fontStyle := Some "serif";
                  st_designNotes := None |};
     mkdir := Resolves ();
     extractFrameAt := λ _, Resolves "frame.jpg";
     deleteFile := Resolves ();
     extractFrames := Resolves ["frame_0001.jpg"; "frame_0002.jpg"];
     extractRestaurantData := extractRestaurantData calmEnv |}.

(** What the frame-based pipeline makes of [calmEnv]. *)
Definition legacyResult : ExtractionResult :=
  match fallbackOutcome calmEnv "visit.mp4" sampleOptions with
  | Returned res => res
  | _ => emptyResult
  end.

(** What the primary pipeline makes of [brightEnv]. *)
Definition brightResult : ExtractionResult :=
  match primaryOutcome brightEnv with
  | Returned res => res
  | _ => emptyResult
  end.

(** Every entry of the index is the summary of the run file stored under
    its identifier. *)
Definition indexMatchesFiles (d : Disk) : Prop :=
  ∀ r, r ∈ Logger.listRuns d →
       ∃ lg, Logger.load (rs_runId r) d = Some lg ∧ r = Logger.summary lg.

(** [n] finished runs with the identifiers [0 .. n-1], oldest first. *)
Definition finishedRuns (n : nat) : list ExtractionLogger :=
  (λ id, Logger.fail "503 Service Unavailable" (Logger.new id)) <$> seq 0 n.

(** A poll answer that says the file is still being processed. *)
Definition saysProcessing (p : Remote RemoteFile) : Prop :=
  ∃ f, p = Resolves f ∧ rf_state f = "PROCESSING".


(** [e] with other answers to [uploadFile] and [getFile]. *)
Definition withUpload (u : Remote RemoteFile) (polls : list (Remote RemoteFile))
    (e : Env) : Env :=
  {| uploadFile := u; getFile := polls;
     getMetadata := getMetadata e; generateFrames := generateFrames e;
     generatePass1 := generatePass1 e; generatePass2 := generatePass2 e;
     generateInfo := generateInfo e; generateStyle := generateStyle e;
     mkdir := mkdir e; extractFrameAt := extractFrameAt e;
     deleteFile := deleteFile e; extractFrames := extractFrames e;
     extractRestaurantData := extractRestaurantData e |}.

Definition processingFile : RemoteFile :=
  {| rf_name := "files/abc"; rf_uri := "https://files/abc";
     rf_mimeType := "video/mp4"; rf_state := "PROCESSING" |}.

(** The service keeps saying PROCESSING for as long as it is asked. *)
Definition stalledEnv : Env :=
  withUpload (Resolves processingFile)
    [Resolves processingFile; Resolves processingFile] calmEnv.

(** The frame a successful [extractFrameAt] turns a selection into. *)
Definition written (f : Frame) (outputPath : string) : Frame :=
  {| f_timestamp := f_timestamp f; f_type := f_type f;
     f_description := f_description f; f_priority := f_priority f;
     f_path := Some outputPath |}.

(** [e] with another answer to [extractFrameAt]. *)
Definition withExtractFrameAt (g : Frame → Remote string) (e : Env) : Env :=
  {| uploadFile := uploadFile e; getFile := getFile e;
     getMetadata := getMetadata e; generateFrames := generateFrames e;
     generatePass1 := generatePass1 e; generatePass2 := generatePass2 e;
     generateInfo := generateInfo e; generateStyle := generateStyle e;
     mkdir := mkdir e; extractFrameAt := g;
     deleteFile := deleteFile e; extractFrames := extractFrames e;
     extractRestaurantData := extractRestaurantData e |}.

(** ffmpeg fails on every timestamp. *)
Definition noFrameEnv : Env :=
  withExtractFrameAt (λ _, Rejects "Frame extraction failed") calmEnv.







(** ** Frame-based analysis (gemini-vision.js) *)

Module GeminiVision.

(** [selectDistributedFrames(frames, maxCount)].  An entry of the selection
  is [frames[index]], absent when the index is out of range; the early
  return hands the frames back as they are. *)
Definition selectDistributedFrames {A} (frames : list A) (maxCount : nat)
  : list (option A) :=
if (length frames <=? maxCount)%nat then Some <$> frames
else
  let step := num (length frames) / num maxCount in
  (λ i, frames !! Z.to_nat (Qfloor (num i * step))) <$> seq 0 maxCount.

(** [extractRestaurantData(framePaths)]: [analyzeImages] answers for the
  selected frames; a response that does not parse is thrown on, under a
  new message. *)
Definition extractRestaurantData
  (analyzeImages : list (option string) → Remote (Response Extracted))
  (framePaths : list string) : Remote Extracted :=
let maxFrames := 15%nat in
let selectedFrames := selectDistributedFrames framePaths maxFrames in
match analyzeImages selectedFrames with
| Resolves response =>
    match parsed response with
    | WellFormed v => Resolves v
    | Malformed msg => Rejects ("Failed to parse restaurant data: " ++ msg)
    end
| Rejects e => Rejects e
end.

End GeminiVision.

(** The position of the [i]-th of [m] frames selected among [n]. *)
Definition frameIndex (n m i : nat) : nat :=
  Z.to_nat (Qfloor (num i * (num n / num m))).

(** The collaborators of a run whose frame-based analysis is the code of
    gemini-vision.js over the model answers [analyzeImages]. *)
Definition withVision
    (analyzeImages : list (option string) → Remote (Response Extracted))
    (e : Env) : Env :=
  {| uploadFile := uploadFile e; getFile := getFile e;
     getMetadata := getMetadata e; generateFrames := generateFrames e;
     generatePass1 := generatePass1 e; generatePass2 := generatePass2 e;
     generateInfo := generateInfo e; generateStyle := generateStyle e;
     mkdir := mkdir e; extractFrameAt := extractFrameAt e;
     deleteFile := deleteFile e; extractFrames := extractFrames e;
     extractRestaurantData := GeminiVision.extractRestaurantData analyzeImages |}.

(** A model answer that is not JSON. *)
Definition proseAnswer : Response Extracted :=
  {| text := "Sorry, I cannot analyse these frames.";
     parsed := Malformed "Unexpected token S in JSON at position 0" |}.

(** The frame-selection call is rejected and the frame-based analysis gets
    prose for an answer. *)
Definition proseEnv : Env := withVision (λ _, Resolves proseAnswer) framesDown.

(** ** The MIME type sent with the upload *)

(** Strings as JavaScript has them, read as sequences of code units below
    256. *)
Module JsString.

(** [s.split(sep)] for a separator of one character. *)
Fixpoint split (sep : Ascii.ascii) (s : string) : list string :=
match s with
| EmptyString => [EmptyString]
| String c r =>
    if Ascii.eqb c sep then EmptyString :: split sep r
    else match split sep r with
         | seg :: segs => String c seg :: segs
         | [] => [String c EmptyString]
         end
end.

(** The lower-case form of one code unit: A-Z, and the capital letters of
  U+00C0-U+00DE (U+00D7, the multiplication sign, is none). *)
Definition lower (c : Ascii.ascii) : Ascii.ascii :=
let n := Ascii.nat_of_ascii c in
if (65 <=? n)%nat && (n <=? 90)%nat then Ascii.ascii_of_nat (n + 32)
else if (192 <=? n)%nat && (n <=? 222)%nat && negb (n =? 215)%nat
     then Ascii.ascii_of_nat (n + 32)
else c.

(** [s.toLowerCase()]. *)
Fixpoint toLowerCase (s : string) : string :=
match s with
| EmptyString => EmptyString
| String c r => String (lower c) (toLowerCase r)
end.

End JsString.

(** The character [.] (U+002E). *)
Definition dot : Ascii.ascii := Ascii.ascii_of_nat 46.

(** What [mimeTypes[ext] || 'video/mp4'] evaluates to: a string, or the
    member of [Object.prototype] the key names. *)
Inductive MimeType :=
| Mime (s : string)
| Inherited (key : string).

(** The own properties of the [mimeTypes] literal. *)
Definition mimeTypes : gmap string string :=
  {[ "mp4" := "video/mp4";
     "mov" := "video/quicktime";
     "avi" := "video/x-msvideo";
     "webm" := "video/webm";
     "mkv" := "video/x-matroska" ]}.

(** The properties an object literal inherits; their values are functions
    and objects, all truthy. *)
Definition objectPrototype : list string :=
  [ "constructor"; "__proto__"; "hasOwnProperty"; "isPrototypeOf";
    "propertyIsEnumerable"; "toLocaleString"; "toString"; "valueOf";
    "__defineGetter__"; "__defineSetter__"; "__lookupGetter__";
    "__lookupSetter__" ].

(** [filePath.split('.').pop().toLowerCase()]; [split] never returns the
    empty array, so that [pop()] is a string. *)
Definition extension (filePath : string) : string :=
  JsString.toLowerCase
    (default EmptyString (last (JsString.split dot filePath))).

Definition _getMimeType (filePath : string) : MimeType :=
  let ext := extension filePath in
  match mimeTypes !! ext with
  | Some m => if truthy (Some m) then Mime m else Mime "video/mp4"
  | None =>
      if bool_decide (ext ∈ objectPrototype) then Inherited ext
      else Mime "video/mp4"
  end.

(** No dot in the string. *)
Fixpoint dotless (s : string) : bool :=
  match s with
  | EmptyString => true
  | String c r => negb (Ascii.eqb c dot) && dotless r
  end.

(** * Properties *)

(** ** Quality scorer *)

Lemma num_ge_spec (x y : Q) : num_ge x y = true ↔ y <= x.
Proof. unfold num_ge. apply Qle_bool_iff. Qed.

Lemma num_lt_spec (x y : Q) : num_lt x y = true ↔ x < y.
Proof.
  unfold num_lt. rewrite negb_true_iff. split.
  - intros H. apply Qnot_le_lt. intros Hle.
    apply Qle_bool_iff in Hle. congruence.
  - intros H. destruct (Qle_bool y x) eqn:E; [|done].
    apply Qle_bool_iff in E. lra.
Qed.

(** Equal numbers are reported alike. *)
Lemma toFixed2_comp (x y : Q) : x == y → toFixed2 x = toFixed2 y.
Proof.
  intros H. unfold toFixed2.
  assert (Hf : Qfloor (Qabs x * 100 + (1 # 2)) =
               Qfloor (Qabs y * 100 + (1 # 2))).
  { apply Qfloor_comp. apply Qplus_comp; [|reflexivity].
    apply Qmult_comp; [|reflexivity]. by apply Qabs_wd. }
  assert (Hb : Qle_bool 0 x = Qle_bool 0 y).
  { apply eq_true_iff_eq. rewrite !Qle_bool_iff. by rewrite H. }
  by rewrite Hf, Hb.
Qed.

(** [toFixed2] yields a multiple of 1/100 at distance at most 1/200. *)
Lemma toFixed2_nearest (x : Q) :
  ∃ n : Z, toFixed2 x == inject_Z n / 100 ∧ Qabs (toFixed2 x - x) <= 1 # 200.
Proof.
  unfold toFixed2.
  set (y := Qabs x * 100 + (1 # 2)).
  assert (Hlo : inject_Z (Qfloor y) <= y) by apply Qfloor_le.
  assert (Hhi : y < inject_Z (Qfloor y + 1)) by apply Qlt_floor.
  rewrite inject_Z_plus in Hhi. change (inject_Z 1) with 1 in Hhi.
  set (n := inject_Z (Qfloor y)) in *.
  unfold y in Hlo, Hhi. set (a := Qabs x) in *.
  assert (Hd : n / 100 == n * (1 # 100)) by field.
  destruct (Qle_bool 0 x) eqn:E.
  - apply Qle_bool_iff in E.
    exists (Qfloor y). split; [reflexivity|].
    assert (Ha : a == x) by (apply Qabs_pos; exact E).
    apply Qabs_Qle_condition. split; lra.
  - assert (Hneg : x < 0).
    { apply Qnot_le_lt. intros Hle. apply Qle_bool_iff in Hle. congruence. }
    exists (- Qfloor y)%Z. split.
    + rewrite inject_Z_opp. fold n. field.
    + assert (Ha : a == - x) by (apply Qabs_neg; lra).
      apply Qabs_Qle_condition. split; lra.
Qed.

Lemma strict_eq_spec (s : option string) (lit : string) :
  strict_eq s lit = true ↔ s = Some lit.
Proof.
  destruct s as [v|]; simpl; [|split; discriminate].
  rewrite String.eqb_eq. split; [intros ->; done | by intros [= ->]].
Qed.

Lemma isDefaultStyle_spec (result : ExtractionResult) :
  isDefaultStyle result = true ↔
  r_style result ≫= st_primaryColor = Some "#2563eb" ∧
  r_style result ≫= st_theme = Some "modern".
Proof.
  unfold isDefaultStyle. rewrite andb_true_iff, !strict_eq_spec. done.
Qed.

(** C1, as stated, fails: a style that differs from the fallback tuple in
    its secondary colour, mood and font style is still scored 0.3. *)
Lemma C1_style_tuple_counterexample :
  ¬ (scores_style halfDefaultStyle = 0.3 ↔
     styleTuple halfDefaultStyle = defaultTuple).
Proof.
  intros [H _]. specialize (H eq_refl). discriminate H.
Qed.

(** C1 (amended): the style score is 0.3 exactly when the primary colour is
    "#2563eb" and the theme is "modern" (the other three fields are not
    looked at), and 1 otherwise; the reported score is that value. In
    particular the fallback tuple is scored 0.3. *)
Theorem C1_style_score (result : ExtractionResult) :
  (scores_style result = 0.3 ↔
     r_style result ≫= st_primaryColor = Some "#2563eb" ∧
     r_style result ≫= st_theme = Some "modern") ∧
  (scores_style result = 1 ↔
     ¬ (r_style result ≫= st_primaryColor = Some "#2563eb" ∧
        r_style result ≫= st_theme = Some "modern")) ∧
  sc_style (q_scores (assessQuality result)) == scores_style result ∧
  (styleTuple result = defaultTuple → scores_style result = 0.3).
Proof.
  pose proof (isDefaultStyle_spec result) as Hd.
  assert (Hs : sc_style (q_scores (assessQuality result)) == scores_style result).
  { simpl. unfold scores_style. by destruct (isDefaultStyle result). }
  assert (Ht : styleTuple result = defaultTuple →
               isDefaultStyle result = true).
  { unfold styleTuple, defaultTuple. simpl. intros [= Ht Hp _ _ _].
    by apply Hd. }
  unfold scores_style in *.
  destruct (isDefaultStyle result) eqn:E.
  - split; [|split; [|split]]; [| |exact Hs|done].
    + split; [intros _; by apply Hd | done].
    + split; [discriminate | intros H; exfalso; apply H, Hd; done].
  - split; [|split; [|split]]; [| |exact Hs|].
    + split; [discriminate | intros H; apply Hd in H; discriminate].
    + split; [intros _ H; apply Hd in H; discriminate | done].
    + intros H. apply Ht in H. discriminate.
Qed.

(** The fallback style of [extractStyle] is scored 0.3. *)
Lemma C1_style_score_witness :
  styleTuple {| r_frames := []; r_menuItems := None;
                r_restaurantInfo := None; r_style := Some fallbackStyle |}
  = defaultTuple ∧
  scores_style {| r_frames := []; r_menuItems := None;
                  r_restaurantInfo := None; r_style := Some fallbackStyle |}
  = 0.3.
Proof.
  split; [reflexivity|].
  apply (C1_style_score
           {| r_frames := []; r_menuItems := None;
              r_restaurantInfo := None; r_style := Some fallbackStyle |}).
  reflexivity.
Defined.

Lemma existsb_is_critical (l : list Issue) :
  existsb is_critical l = true ↔ has_critical l.
Proof.
  unfold has_critical. rewrite existsb_exists. split.
  - intros (i & Hin & Hc). exists i. split; [by apply list_elem_of_In|].
    unfold is_critical in Hc. by destruct (i_type i).
  - intros (i & Hin & Hc). exists i. split; [by apply list_elem_of_In|].
    unfold is_critical. by rewrite Hc.
Qed.

Lemma length_zero_nil {A} (l : list A) : (length l =? 0)%nat = true ↔ l = [].
Proof. destruct l; simpl; split; done. Qed.

Lemma classic_critical (l : list Issue) : has_critical l ∨ ¬ has_critical l.
Proof.
  pose proof (existsb_is_critical l) as H.
  destruct (existsb is_critical l); [left|right]; [by apply H|].
  intros Hc. apply H in Hc. discriminate.
Qed.

(** The cascade of [assessQuality], read off the code. *)
Lemma rating_cascade (result : ExtractionResult) :
  (has_critical (issues result) → rating result = poor) ∧
  (¬ has_critical (issues result) →
   (rating result = good ↔ 0.8 <= overall result ∧ issues result = []) ∧
   (rating result = fair ↔
      ¬ (0.8 <= overall result ∧ issues result = []) ∧
      0.6 <= overall result) ∧
   (rating result = poor ↔
      ¬ (0.8 <= overall result ∧ issues result = []) ∧
      ¬ 0.6 <= overall result)).
Proof.
  unfold rating.
  pose proof (existsb_is_critical (issues result)) as Hc.
  pose proof (num_ge_spec (overall result) 0.8) as H8.
  pose proof (num_ge_spec (overall result) 0.6) as H6.
  pose proof (length_zero_nil (issues result)) as Hn.
  destruct (existsb is_critical (issues result)).
  { split; [done|]. intros H. exfalso. apply H, Hc. done. }
  split; [intros H; apply Hc in H; discriminate|]. intros _.
  destruct (num_ge (overall result) 0.8), (length (issues result) =? 0)%nat,
    (num_ge (overall result) 0.6); simpl;
    (split; [|split]); (split; [try discriminate; intros _|]);
    try (intros [? ?]); try tauto;
    try (split; [intros [? ?]|]); intuition discriminate.
Qed.

(** C2: a critical issue forces the rating "poor"; without one the rating
    is "good" iff the overall score is at least 0.8 and there is no issue,
    otherwise "fair" iff the overall score is at least 0.6, otherwise
    "poor". The overall score compared is the computed one. *)
Theorem C2_rating (result : ExtractionResult) :
  let report := assessQuality result in
  (has_critical (q_issues report) → q_rating report = poor) ∧
  (¬ has_critical (q_issues report) →
   (q_rating report = good ↔
      0.8 <= overall result ∧ q_issues report = []) ∧
   (q_rating report = fair ↔
      ¬ (0.8 <= overall result ∧ q_issues report = []) ∧
      0.6 <= overall result) ∧
   (q_rating report = poor ↔
      ¬ (0.8 <= overall result ∧ q_issues report = []) ∧
      ¬ 0.6 <= overall result)).
Proof. exact (rating_cascade result). Qed.

(** A result with no menu item and no frame is rated "poor". *)
Lemma C2_rating_witness :
  has_critical (q_issues (assessQuality emptyResult)) ∧
  q_rating (assessQuality emptyResult) = poor.
Proof.
  assert (H : has_critical (q_issues (assessQuality emptyResult))).
  { eexists. split; [apply list_elem_of_here|reflexivity]. }
  split; [exact H|].
  exact (proj1 (C2_rating emptyResult) H).
Defined.

Lemma fold_left_sum {A} (f : A → Q) (l : list A) (a : Q) :
  fold_left (λ sum i, sum + f i) l a == a + fold_right Qplus 0 (f <$> l).
Proof.
  revert a. induction l as [|x l IH]; intros a;
    cbn [fold_left fold_right fmap list_fmap].
  - ring.
  - rewrite IH. ring.
Qed.

Lemma avgConfidence_mean (result : ExtractionResult) :
  avgConfidence result ==
  mean ((λ i, or_zero (mi_confidence i)) <$> menuItems result).
Proof.
  unfold avgConfidence, menuCount, mean.
  destruct (menuItems result) as [|i l] eqn:E; [reflexivity|].
  cbn [length Nat.ltb Nat.leb fmap list_fmap].
  rewrite fold_left_sum, length_fmap.
  cbn [fmap list_fmap length]. apply Qdiv_comp; [ring|reflexivity].
Qed.

(** C8: the menu score is
    0.4·min(1, n/5) + 0.3·(1 − needsReview/max(n, 1)) + 0.3·avgConfidence,
    with avgConfidence the mean item confidence (0 without items). Three
    items with confidences 0.9, 0.4, 0.8, one of them flagged, give
    avgConfidence 0.7 and menu score 0.65, which is 0.649 up to the two
    decimals scores are reported with. *)
Theorem C8_menu_score (result : ExtractionResult) :
  scores_menu result ==
    menuScore_spec (menuCount result) (needsReviewCount result)
      (avgConfidence result) ∧
  avgConfidence result ==
    mean ((λ i, or_zero (mi_confidence i)) <$> menuItems result) ∧
  (∀ a b c,
     menuItems result = [a; b; c] →
     or_zero (mi_confidence a) == 0.9 →
     or_zero (mi_confidence b) == 0.4 →
     or_zero (mi_confidence c) == 0.8 →
     needsReviewCount result = 1%nat →
     avgConfidence result == 0.7 ∧
     scores_menu result == 0.65 ∧
     Qabs (scores_menu result - 0.649) < 0.005 ∧
     sc_menu (q_scores (assessQuality result)) == toFixed2 0.649).
Proof.
  split; [unfold scores_menu, menuScore_spec; ring|].
  split; [apply avgConfidence_mean|].
  intros a b c Hl Ha Hb Hc Hn.
  assert (Havg : avgConfidence result == 0.7).
  { unfold avgConfidence, menuCount. rewrite Hl.
    cbn [length Nat.ltb Nat.leb fold_left]. rewrite Ha, Hb, Hc. reflexivity. }
  assert (Hs : scores_menu result == 0.65).
  { unfold scores_menu. rewrite Havg, Hn. unfold menuCount. rewrite Hl.
    reflexivity. }
  split; [exact Havg|]. split; [exact Hs|]. split.
  - rewrite Hs. reflexivity.
  - cbn [assessQuality q_scores sc_menu].
    rewrite (toFixed2_comp _ _ Hs). reflexivity.
Qed.

(** The worked example, evaluated. *)
Lemma C8_menu_score_witness :
  avgConfidence threeItems == 0.7 ∧ scores_menu threeItems == 0.65.
Proof.
  destruct (C8_menu_score threeItems) as (_ & _ & H).
  destruct (H (dish "Margherita" 0.9 false) (dish "Tiramisu" 0.4 true)
              (dish "Lasagne" 0.8 false))
    as (Havg & Hs & _); try reflexivity.
  split; [exact Havg | exact Hs].
Defined.

(** C10: the report carries the overall score and the four dimension scores
    rounded to two decimals, while the rating is decided on the computed
    overall score; so a result without issues can be reported with overall
    0.8 and still be rated "fair" (here the computed score is 0.798875). *)
Theorem C10_rounded_report :
  (∀ result : ExtractionResult,
     let report := assessQuality result in
     q_overall report = toFixed2 (overall result) ∧
     sc_menu (q_scores report) = toFixed2 (scores_menu result) ∧
     sc_restaurantInfo (q_scores report) =
       toFixed2 (scores_restaurantInfo result) ∧
     sc_frames (q_scores report) = toFixed2 (scores_frames result) ∧
     sc_style (q_scores report) = toFixed2 (scores_style result) ∧
     (q_rating report = good ↔
        ¬ has_critical (q_issues report) ∧
        0.8 <= overall result ∧ q_issues report = [])) ∧
  (∀ x : Q, ∃ n : Z,
     toFixed2 x == inject_Z n / 100 ∧ Qabs (toFixed2 x - x) <= 1 # 200) ∧
  (∃ result : ExtractionResult,
     let report := assessQuality result in
     q_issues report = [] ∧
     q_overall report == 0.8 ∧
     overall result == 0.798875 ∧
     overall result < 0.8 ∧
     q_rating report = fair).
Proof.
  split; [|split].
  - intros result. cbn zeta. repeat (split; [reflexivity|]).
    destruct (rating_cascade result) as [Hc Hn].
    split.
    + intros Hg. destruct (classic_critical (issues result)) as [H|H].
      * apply Hc in H. cbn in H, Hg. congruence.
      * split; [exact H|]. by apply (Hn H).
    + intros (H & H8 & Hi). by apply (Hn H).
  - apply toFixed2_nearest.
  - exists nearlyGood. cbn zeta.
    split; [reflexivity|]. split; [reflexivity|]. split; [reflexivity|].
    split; [reflexivity|]. reflexivity.
Qed.

(** ** Stages of the primary pipeline *)

Lemma num_pos (n : nat) : (0 < n)%nat → 0 < num n.
Proof.
  intros H. unfold num. change 0 with (inject_Z 0).
  rewrite <- Zlt_Qlt. lia.
Qed.

Lemma num_lt_mono (n m : nat) : (n < m)%nat → num n < num m.
Proof. intros H. unfold num. rewrite <- Zlt_Qlt. lia. Qed.

Lemma num_S (n : nat) : num (S n) == num n + 1.
Proof.
  unfold num. rewrite Nat2Z.inj_succ, <- Z.add_1_r, inject_Z_plus.
  reflexivity.
Qed.

Lemma fallbackFrames_lookup (d : Q) (i : nat) (f : Frame) :
  fallbackFrames d !! i = Some f ↔
  (i < 10)%nat ∧
  f = {| f_timestamp := Some (d / num 11 * num (i + 1));
         f_type := "unknown"; f_description := "Auto-selected frame";
         f_priority := "medium"; f_path := None |}.
Proof.
  unfold fallbackFrames. rewrite list_lookup_fmap_Some. split.
  - intros (k & -> & Hk). apply lookup_seq in Hk as [-> Hlt].
    split; [exact Hlt | reflexivity].
  - intros [Hlt ->]. exists i. split; [reflexivity|].
    apply lookup_seq. split; [reflexivity | exact Hlt].
Qed.

(** The substitute frames: ten of them, the i-th (from 0) at
    (i + 1)·d/11, tagged "unknown" / "medium". *)
Lemma fallbackFrames_shape (d : Q) :
  0 < d →
  length (fallbackFrames d) = 10%nat ∧
  length (timestamps (fallbackFrames d)) = 10%nat ∧
  Forall (λ f, f_type f = "unknown" ∧ f_priority f = "medium")
    (fallbackFrames d) ∧
  (∀ i t, timestamps (fallbackFrames d) !! i = Some t →
          t == num (i + 1) * (d / 11) ∧ 0 <= t ∧ t <= d) ∧
  (∀ i t t', timestamps (fallbackFrames d) !! i = Some t →
             timestamps (fallbackFrames d) !! S i = Some t' →
             t < t' ∧ t' - t == d / 11).
Proof.
  intros Hd.
  assert (Hstep : 0 < d / 11).
  { apply Qlt_shift_div_l; [reflexivity | lra]. }
  assert (Hts : ∀ i t, timestamps (fallbackFrames d) !! i = Some t →
                       (i < 10)%nat ∧ t = d / num 11 * num (i + 1)).
  { intros i t. unfold timestamps, fallbackFrames. cbn [seq fmap list_fmap omap list_omap f_timestamp].
    do 10 (destruct i as [|i]; [intros [= <-]; split; [lia|reflexivity]|]).
    discriminate. }
  assert (H11 : d / num 11 == d / 11) by reflexivity.
  split; [reflexivity|]. split; [reflexivity|]. split; [|split].
  - apply Forall_forall. intros f Hin.
    apply list_elem_of_lookup in Hin as [i Hi].
    apply fallbackFrames_lookup in Hi as [_ ->]. done.
  - intros i t Hi. apply Hts in Hi as [Hlt ->].
    assert (Hlo : 0 < num (i + 1)) by (apply num_pos; lia).
    assert (Hhi : num (i + 1) < num 11) by (apply num_lt_mono; lia).
    change (num 11) with 11 in *.
    assert (Hd11 : d == 11 * (d / 11)) by field.
    split; [ring|]. split; nra.
  - intros i t t' Hi Hi'.
    apply Hts in Hi as [_ ->]. apply Hts in Hi' as [_ ->].
    replace (S i + 1)%nat with (S (i + 1)) by lia.
    change (num 11) with 11.
    split; [rewrite num_S; lra | rewrite num_S; ring].
Qed.

(** C6: for a duration d > 0, an unparseable frame-selection response makes
    the stage return exactly ten frames, at the evenly spaced, strictly
    increasing timestamps d/11, 2d/11, ..., 10d/11 inside [0, d], each
    tagged "unknown" / "medium". *)
Theorem C6_frame_selection_fallback (env : Env) (file : RemoteFile) (d : Q)
    (s : State) (r : Response ParsedFrames) (msg : string) :
  0 < d →
  is_Some (x_logger s) →
  generateFrames env = Resolves r →
  parsed r = Malformed msg →
  ∃ frames s',
    selectKeyFrames env file (Seconds d) s = (Returned frames, s') ∧
    length frames = 10%nat ∧
    length (timestamps frames) = 10%nat ∧
    Forall (λ f, f_type f = "unknown" ∧ f_priority f = "medium") frames ∧
    (∀ i t, timestamps frames !! i = Some t →
            t == num (i + 1) * (d / 11) ∧ 0 <= t ∧ t <= d) ∧
    (∀ i t t', timestamps frames !! i = Some t →
               timestamps frames !! S i = Some t' →
               t < t' ∧ t' - t == d / 11).
Proof.
  intros Hd [lg Hlg] Hg Hp. destruct s as [u dk lgo fl rel].
  cbn in Hlg. subst lgo.
  exists (fallbackFrames d). eexists. split.
  - unfold selectKeyFrames, promptDuration, startStep, try_catch, bind, ret,
      uuidv4.
    cbn. rewrite Hg. cbn. rewrite Hp. cbn. reflexivity.
  - by apply fallbackFrames_shape.
Qed.

(** A 30-second video whose frame-selection response is not JSON. *)
Lemma C6_frame_selection_fallback_witness :
  ∃ frames s',
    selectKeyFrames (withFrames garbled calmEnv) readyFile (Seconds 30) midRun
      = (Returned frames, s') ∧
    length frames = 10%nat ∧
    length (timestamps frames) = 10%nat ∧
    Forall (λ f, f_type f = "unknown" ∧ f_priority f = "medium") frames ∧
    (∀ i t, timestamps frames !! i = Some t →
            t == num (i + 1) * (30 / 11) ∧ 0 <= t ∧ t <= 30) ∧
    (∀ i t t', timestamps frames !! i = Some t →
               timestamps frames !! S i = Some t' →
               t < t' ∧ t' - t == 30 / 11).
Proof.
  apply (C6_frame_selection_fallback (withFrames garbled calmEnv) readyFile 30
           midRun {| text := "Sorry, I cannot help with that.";
                     parsed := Malformed "Unexpected token S in JSON" |}
           "Unexpected token S in JSON").
  - reflexivity.
  - eexists. reflexivity.
  - reflexivity.
  - reflexivity.
Defined.

(** A tracker method on the step started last. *)
Lemma alter_last {A} (f : A → A) (l : list A) (x : A) :
  alter f (length l) (l ++ [x]) = l ++ [f x].
Proof.
  rewrite alter_app_r_alt by lia. by rewrite Nat.sub_diag.
Qed.

Ltac run_stage :=
  unfold extractMenuTwoPass, menuPass1, menuPass2, selectKeyFrames,
    extractRestaurantInfo, extractStyle, extractFramesFromTimestamps,
    uploadVideo, startStep, step_setOutput, step_addWarning, step_complete,
    step_fail, on_logger, try_catch, bind, ret, throw, await, settle, uuidv4,
    promptDuration;
  cbn.

(** C7: when pass 1 parses to no item, the stage returns the empty,
    verified menu and starts no pass-2 step; when the pass-1 response does
    not parse, it returns the empty, unverified menu. *)
Theorem C7_menu_pass1_outcomes (env : Env) (file : RemoteFile) (s : State)
    (lg : ExtractionLogger) (r : Response ParsedMenu) :
  x_logger s = Some lg →
  generatePass1 env = Resolves r →
  (∀ p, parsed r = WellFormed p → default [] (pm_items p) = [] →
     ∃ m s' lg',
       extractMenuTwoPass env file s = (Returned m, s') ∧
       me_items m = [] ∧ me_verified m = true ∧
       x_logger s' = Some lg' ∧
       s_name <$> steps lg' =
         (s_name <$> steps lg) ++ ["menu_extraction_pass1"]) ∧
  (∀ msg, parsed r = Malformed msg →
     ∃ m s',
       extractMenuTwoPass env file s = (Returned m, s') ∧
       me_items m = [] ∧ me_verified m = false).
Proof.
  intros Hlg Hg. destruct s as [u dk lgo fl rel]. cbn in Hlg. subst lgo.
  split.
  - intros p Hp Hi. do 3 eexists. split.
    + run_stage. rewrite Hg. cbn. rewrite Hp. cbn. rewrite Hi. cbn.
      reflexivity.
    + repeat split; try reflexivity.
      cbn [steps]. rewrite alter_last, fmap_app. reflexivity.
  - intros msg Hp. do 2 eexists. split.
    + run_stage. rewrite Hg. cbn. rewrite Hp. cbn. reflexivity.
    + done.
Qed.

(** Pass 1 finds no menu in one run and answers with prose in another. *)
Lemma C7_menu_pass1_outcomes_witness :
  (∃ m s' lg',
     extractMenuTwoPass
       (withPass1 (respond {| pm_items := Some [];
                              pm_menuStyleNotes := None |}) calmEnv)
       readyFile midRun = (Returned m, s') ∧
     me_items m = [] ∧ me_verified m = true ∧
     x_logger s' = Some lg' ∧
     s_name <$> steps lg' = ["menu_extraction_pass1"]) ∧
  (∃ m s',
     extractMenuTwoPass (withPass1 garbled calmEnv) readyFile midRun
       = (Returned m, s') ∧
     me_items m = [] ∧ me_verified m = false).
Proof.
  split.
  - exact (proj1 (C7_menu_pass1_outcomes
                    (withPass1 (respond {| pm_items := Some [];
                                           pm_menuStyleNotes := None |})
                       calmEnv)
                    readyFile midRun (Logger.new 0%nat)
                    {| text := "{}";
                       parsed := WellFormed {| pm_items := Some [];
                                               pm_menuStyleNotes := None |} |}
                    eq_refl eq_refl)
             {| pm_items := Some []; pm_menuStyleNotes := None |}
             eq_refl eq_refl).
  - exact (proj2 (C7_menu_pass1_outcomes (withPass1 garbled calmEnv)
                    readyFile midRun (Logger.new 0%nat)
                    {| text := "Sorry, I cannot help with that.";
                       parsed := Malformed "Unexpected token S in JSON" |}
                    eq_refl eq_refl)
             "Unexpected token S in JSON" eq_refl).
Defined.

(** C5: on the fallback-confidence path (pass 2 rejected or unparseable
    after a non-empty pass 1, or the frame-based pipeline) every returned
    item has confidence 0.7 and needsReview set, and the menu is marked
    unverified. *)
Theorem C5_default_confidence (env : Env) :
  (∀ file s lg r1 p1,
     x_logger s = Some lg →
     generatePass1 env = Resolves r1 →
     parsed r1 = WellFormed p1 →
     default [] (pm_items p1) ≠ [] →
     ((∃ e, generatePass2 env (default [] (pm_items p1)) = Rejects e) ∨
      (∃ r2 msg, generatePass2 env (default [] (pm_items p1)) = Resolves r2 ∧
                 parsed r2 = Malformed msg)) →
     ∃ m s',
       extractMenuTwoPass env file s = (Returned m, s') ∧
       defaultConfidence m ∧
       length (me_items m) = length (default [] (pm_items p1))) ∧
  (∀ videoPath options s fr data,
     extractFrames env = Resolves fr →
     extractRestaurantData env fr = Resolves (Shaped data) →
     ∃ res m,
       extractFrameBased env videoPath options s = (Returned res, s) ∧
       r_menuItems res = Some m ∧
       defaultConfidence m ∧
       length (me_items m) = length (default [] (ed_menuItems data))).
Proof.
  split.
  - intros file s lg r1 p1 Hlg Hg Hp Hne H2.
    destruct s as [u dk lgo fl rel]. cbn in Hlg. subst lgo.
    destruct (default [] (pm_items p1)) as [|i items] eqn:Hi; [done|].
    assert (Hd : defaultConfidence
                   {| me_items := withDefaultConfidence <$> i :: items;
                      me_verified := false;
                      me_menuStyleNotes :=
                        Some (or_str (pm_menuStyleNotes p1) EmptyString) |}).
    { split; [|reflexivity]. apply Forall_fmap, Forall_forall. done. }
    destruct H2 as [[e He] | (r2 & msg & Hr & Hm)].
    + do 2 eexists. split; [|split; [exact Hd|]].
      * run_stage. rewrite Hg. cbn. rewrite Hp. cbn. rewrite Hi. cbn.
        rewrite He. cbn. reflexivity.
      * cbn. by rewrite length_fmap.
    + do 2 eexists. split; [|split; [exact Hd|]].
      * run_stage. rewrite Hg. cbn. rewrite Hp. cbn. rewrite Hi. cbn.
        rewrite Hr. cbn. rewrite Hm. cbn. reflexivity.
      * cbn. by rewrite length_fmap.
  - intros videoPath options s fr data Hf Hd.
    do 2 eexists. split; [|split; [|split]].
    + unfold extractFrameBased, convertible, bind, await, ret.
      rewrite Hf, Hd. reflexivity.
    + reflexivity.
    + split; [|reflexivity]. cbn.
      destruct (ed_menuItems data); [|constructor].
      apply Forall_fmap, Forall_forall. done.
    + cbn. destruct (ed_menuItems data); [|done]. by rewrite length_fmap.
Qed.

(** Pass 2 is rejected after a pass 1 with two items. *)
Lemma C5_default_confidence_witness :
  ∃ m s',
    extractMenuTwoPass (withPass2 (Rejects "503 Service Unavailable") calmEnv)
      readyFile midRun = (Returned m, s') ∧
    defaultConfidence m ∧
    length (me_items m) = 2%nat.
Proof.
  refine (proj1 (C5_default_confidence
                   (withPass2 (Rejects "503 Service Unavailable") calmEnv))
            readyFile midRun (Logger.new 0%nat)
            {| text := "{}";
               parsed :=
                 WellFormed
                   {| pm_items := Some [rawDish "Margherita"; rawDish "Lasagne"];
                      pm_menuStyleNotes := Some "Chalkboard menu" |} |}
            {| pm_items := Some [rawDish "Margherita"; rawDish "Lasagne"];
               pm_menuStyleNotes := Some "Chalkboard menu" |}
            eq_refl eq_refl eq_refl _ _).
  - discriminate.
  - left. eexists. reflexivity.
Defined.

(** ** Run ledger *)

Section Index.

Implicit Types (l idx : list RunSummary) (id : Uuid).

Lemma filter_other_id_fresh l id :
  id ∉ rs_runId <$> l → filter (λ x, rs_runId x ≠ id) l = l.
Proof.
  induction l as [|y l IH]; [done|]. cbn [fmap list_fmap].
  rewrite not_elem_of_cons. intros [Hy Hl].
  rewrite filter_cons_True by done. by rewrite IH.
Qed.

Lemma ids_filter_subseteq l id :
  rs_runId <$> filter (λ x, rs_runId x ≠ id) l ⊆ rs_runId <$> l.
Proof.
  intros a. rewrite !list_elem_of_fmap.
  intros (x & -> & Hx). apply list_elem_of_filter in Hx as [_ Hx]. eauto.
Qed.

Lemma NoDup_ids_filter l id :
  NoDup (rs_runId <$> l) →
  NoDup (rs_runId <$> filter (λ x, rs_runId x ≠ id) l).
Proof.
  induction l as [|y l IH]; [done|]. cbn [fmap list_fmap].
  rewrite NoDup_cons. intros [Hy Hl].
  destruct (decide (rs_runId y ≠ id)) as [Hne|Heq].
  - rewrite filter_cons_True by done. cbn [fmap list_fmap].
    apply NoDup_cons. split; [|by apply IH].
    intros Hin. by apply Hy, (ids_filter_subseteq l id).
  - rewrite filter_cons_False by done. by apply IH.
Qed.

Lemma id_not_in_filter l id :
  id ∉ rs_runId <$> filter (λ x, rs_runId x ≠ id) l.
Proof.
  rewrite list_elem_of_fmap. intros (x & -> & Hx).
  apply list_elem_of_filter in Hx as [Hx _]. done.
Qed.

Lemma NoDup_ids_take l n :
  NoDup (rs_runId <$> l) → NoDup (rs_runId <$> take n l).
Proof.
  rewrite fmap_take. intros H.
  eapply sublist_NoDup; [exact H|apply sublist_take].
Qed.

Lemma firstPerRun_NoDup l : NoDup (rs_runId <$> firstPerRun l).
Proof.
  induction l as [|r l IH]; [constructor|].
  cbn [firstPerRun fmap list_fmap]. apply NoDup_cons. split.
  - apply id_not_in_filter.
  - by apply NoDup_ids_filter.
Qed.

(** Dropping the tail of an index before removing one run and cutting
    again changes nothing, as the index holds the run at most once. *)
Lemma take_filter_take l id n :
  NoDup (rs_runId <$> l) →
  take n (filter (λ x, rs_runId x ≠ id) (take (S n) l)) =
  take n (filter (λ x, rs_runId x ≠ id) l).
Proof.
  revert n. induction l as [|y l IH]; intros n; [done|].
  cbn [fmap list_fmap]. rewrite NoDup_cons. intros [Hy Hl].
  rewrite firstn_cons.
  destruct (decide (rs_runId y ≠ id)) as [Hne|Heq].
  - rewrite !filter_cons_True by done.
    destruct n as [|n]; [done|].
    rewrite !firstn_cons. f_equal. by apply IH.
  - rewrite !filter_cons_False by done.
    assert (id = rs_runId y) as -> by (by destruct (decide (id = rs_runId y)); [|exfalso; apply Heq; congruence]).
    rewrite !filter_other_id_fresh; [|done|].
    + rewrite take_take. f_equal. lia.
    + intros Hin. apply Hy. rewrite fmap_take in Hin.
      by apply (subseteq_take n (rs_runId <$> l)).
Qed.

(** One save, on an index that holds every run at most once. *)
Lemma updateIndex_shape (lg : ExtractionLogger) (old : option (list RunSummary)) :
  NoDup (rs_runId <$> default [] old) →
  let idx := Logger.updateIndex lg old in
  (length idx ≤ 100)%nat ∧
  head idx = Some (Logger.summary lg) ∧
  NoDup (rs_runId <$> idx) ∧
  tail idx `sublist_of` default [] old.
Proof.
  intros Hnd. unfold Logger.updateIndex. cbn zeta.
  set (rest := filter (λ r, rs_runId r ≠ runId lg) (default [] old)).
  split; [rewrite length_take; lia|]. split; [done|]. split.
  - apply NoDup_ids_take. cbn [fmap list_fmap]. apply NoDup_cons. split.
    + apply id_not_in_filter.
    + by apply NoDup_ids_filter.
  - rewrite firstn_cons. cbn [tail].
    transitivity rest; [apply sublist_take | apply sublist_filter].
Qed.

Lemma saveAll_snoc saves lg d :
  saveAll (saves ++ [lg]) d = Logger.save lg (saveAll saves d).
Proof. unfold saveAll. by rewrite fold_left_app. Qed.

Lemma saveAll_index (saves : list ExtractionLogger) :
  saves ≠ [] → d_index (saveAll saves emptyDisk) = Some (recentRuns saves).
Proof.
  induction saves as [|lg saves IH] using rev_ind; [done|]. intros _.
  rewrite saveAll_snoc. cbn [Logger.save d_index]. f_equal.
  unfold recentRuns. rewrite reverse_snoc. cbn [fmap list_fmap firstPerRun].
  unfold Logger.updateIndex. cbn zeta.
  destruct saves as [|lg0 saves0] using rev_ind.
  - reflexivity.
  - clear IHsaves0. rewrite IH by (by destruct saves0).
    cbn [default]. unfold recentRuns.
    rewrite !firstn_cons. f_equal.
    change (rs_runId (Logger.summary lg)) with (runId lg).
    apply (take_filter_take _ (runId lg) 99), firstPerRun_NoDup.
Qed.

End Index.

(** C9: after every save the index holds at most 100 summaries, the saved
    run first, every run at most once, the older entries in their previous
    order; after any sequence of saves on an empty directory it is the 100
    most recently saved runs, most recent first; [listRuns] returns the
    index, and the empty list when there is none. *)
Theorem C9_recent_runs_index :
  (∀ (lg : ExtractionLogger) (d : Disk),
     NoDup (rs_runId <$> Logger.listRuns d) →
     let idx := Logger.listRuns (Logger.save lg d) in
     d_index (Logger.save lg d) = Some idx ∧
     (length idx ≤ 100)%nat ∧
     head idx = Some (Logger.summary lg) ∧
     NoDup (rs_runId <$> idx) ∧
     tail idx `sublist_of` Logger.listRuns d) ∧
  (∀ (saves : list ExtractionLogger) (lg : ExtractionLogger),
     let idx := Logger.listRuns (saveAll (saves ++ [lg]) emptyDisk) in
     idx = recentRuns (saves ++ [lg]) ∧
     (length idx ≤ 100)%nat ∧
     head idx = Some (Logger.summary lg) ∧
     NoDup (rs_runId <$> idx)) ∧
  (∀ d : Disk, Logger.listRuns d = default [] (d_index d)).
Proof.
  split; [|split; [|by intros [runs [idx|]]]].
  - intros lg d Hnd. cbn zeta. split; [reflexivity|].
    unfold Logger.listRuns in *. cbn [Logger.save d_index].
    apply updateIndex_shape.
    by destruct (d_index d).
  - intros saves lg. cbn zeta. unfold Logger.listRuns.
    rewrite saveAll_index by (by destruct saves).
    split; [reflexivity|]. unfold recentRuns.
    rewrite reverse_snoc. cbn [fmap list_fmap firstPerRun].
    split; [rewrite length_take; lia|]. split; [done|].
    apply NoDup_ids_take. apply (firstPerRun_NoDup (_ :: _)).
Qed.

(** The first save into an empty directory. *)
Lemma C9_recent_runs_index_witness :
  Logger.listRuns (Logger.save (Logger.new 7%nat) emptyDisk)
    = [Logger.summary (Logger.new 7%nat)] ∧
  NoDup (rs_runId <$> Logger.listRuns (Logger.save (Logger.new 7%nat) emptyDisk)).
Proof.
  split; [reflexivity|].
  destruct (proj1 C9_recent_runs_index (Logger.new 7%nat) emptyDisk)
    as (_ & _ & _ & H & _); [constructor|exact H].
Defined.

(** ** Orchestrator *)

Ltac same_run :=
  do 3 eexists; split; [reflexivity|]; split; [|reflexivity]; cbn; lia.

Lemma uploadVideo_run (env : Env) (videoPath : string) (s : State) :
  is_Some (x_logger s) →
  ∃ s', uploadVideo env videoPath s = (uploaded env, s') ∧ sameRun s s'.
Proof.
  intros [lg H]. destruct s as [u dk lgo fl rel]. cbn in H. subst lgo.
  unfold uploaded. run_stage.
  destruct (uploadFile env) as [f|e]; cbn.
  - destruct (pollWhileProcessing f 0 (getFile env)) as [[file n]|e|]; cbn.
    + destruct (String.eqb (rf_state file) "FAILED"); cbn;
        eexists; (split; [reflexivity|same_run]).
    + eexists. split; [reflexivity|same_run].
    + eexists. split; [reflexivity|same_run].
  - eexists. split; [reflexivity|same_run].
Qed.

Lemma selectKeyFrames_run (env : Env) (file : RemoteFile) (d : Duration)
    (s : State) :
  is_Some (x_logger s) →
  ∃ s', selectKeyFrames env file d s = (framesOutcome env d, s') ∧
        sameRun s s'.
Proof.
  intros [lg H]. destruct s as [u dk lgo fl rel]. cbn in H. subst lgo.
  unfold framesOutcome. destruct d as [d|msg]; run_stage.
  - destruct (generateFrames env) as [[t [p|msg]]|e]; cbn;
      eexists; (split; [reflexivity|same_run]).
  - destruct lg. eexists. split; [reflexivity|same_run].
Qed.

Lemma extractMenuTwoPass_run (env : Env) (file : RemoteFile) (s : State) :
  is_Some (x_logger s) →
  ∃ s', extractMenuTwoPass env file s = (menuOutcome env, s') ∧ sameRun s s'.
Proof.
  intros [lg H]. destruct s as [u dk lgo fl rel]. cbn in H. subst lgo.
  unfold menuOutcome. run_stage.
  destruct (generatePass1 env) as [[t [p|msg]]|e]; cbn;
    [|eexists; (split; [reflexivity|same_run])..].
  destruct (length (default [] (pm_items p)) =? 0)%nat; cbn;
    [eexists; (split; [reflexivity|same_run])|].
  destruct (generatePass2 env (default [] (pm_items p)))
    as [[t2 [p2|msg2]]|e2]; cbn;
    eexists; (split; [reflexivity|same_run]).
Qed.

Lemma extractRestaurantInfo_run (env : Env) (file : RemoteFile) (s : State) :
  is_Some (x_logger s) →
  ∃ s', extractRestaurantInfo env file s = (infoOutcome env, s') ∧
        sameRun s s'.
Proof.
  intros [lg H]. destruct s as [u dk lgo fl rel]. cbn in H. subst lgo.
  unfold infoOutcome, infoContext. run_stage.
  destruct (generateInfo env) as [[t [p|msg]]|e]; cbn;
    eexists; (split; [reflexivity|same_run]).
Qed.

Lemma extractStyle_run (env : Env) (file : RemoteFile) (info : RestaurantInfo)
    (s : State) :
  is_Some (x_logger s) →
  ∃ s', extractStyle env file info s = (styleOutcome env info, s') ∧
        sameRun s s'.
Proof.
  intros [lg H]. destruct s as [u dk lgo fl rel]. cbn in H. subst lgo.
  unfold styleOutcome. run_stage.
  destruct (generateStyle env info) as [[t [p|msg]]|e]; cbn;
    eexists; (split; [reflexivity|same_run]).
Qed.

Lemma extractFramesFromTimestamps_run (env : Env) (videoPath : string)
    (frames : list Frame) (outputDir : Dir) (s : State) :
  is_Some (x_logger s) →
  ∃ s', extractFramesFromTimestamps env videoPath frames outputDir s
          = (materialiseOutcome env frames, s') ∧
        sameRun s s'.
Proof.
  intros [lg H]. destruct s as [u dk lgo fl rel]. cbn in H. subst lgo.
  unfold materialiseOutcome. run_stage.
  destruct (mkdir env) as [[]|e]; cbn.
  - destruct (materialise env frames) as [ok ko]; cbn.
    eexists. split; [reflexivity|same_run].
  - eexists. split; [reflexivity|same_run].
Qed.

Lemma cleanup_run (env : Env) (file : RemoteFile) (s : State) :
  ∃ rel,
    cleanup env file s =
    (Returned (),
     {| x_uuid := x_uuid s; x_disk := x_disk s; x_logger := x_logger s;
        x_file := x_file s; x_released := rel |}).
Proof.
  destruct s as [u dk lgo fl rel].
  unfold cleanup, try_catch, bind, await, ret.
  destruct (deleteFile env); cbn; eexists; reflexivity.
Qed.

#[local] Arguments uploadVideo : simpl never.
#[local] Arguments selectKeyFrames : simpl never.
#[local] Arguments extractMenuTwoPass : simpl never.
#[local] Arguments extractRestaurantInfo : simpl never.
#[local] Arguments extractStyle : simpl never.
#[local] Arguments extractFramesFromTimestamps : simpl never.
#[local] Arguments cleanup : simpl never.

Ltac eval_js :=
  cbn -[union insert singletonM assessQuality Logger.updateIndex].

Ltac after_stage H :=
  let s' := fresh "s" in
  let Hrun := fresh "Hrun" in
  let Hs := fresh "Hsame" in
  destruct H as (s' & Hrun & Hs);
  [ by eexists
  | rewrite Hrun; clear Hrun;
    destruct Hs as (? & ? & ? & ? & ? & ->);
    cbn in *; simplify_eq; eval_js ].

Ltac stage :=
  match goal with
  | |- context [uploadVideo ?e ?v ?S] => after_stage (uploadVideo_run e v S)
  | |- context [selectKeyFrames ?e ?f ?d ?S] =>
      after_stage (selectKeyFrames_run e f d S)
  | |- context [extractMenuTwoPass ?e ?f ?S] =>
      after_stage (extractMenuTwoPass_run e f S)
  | |- context [extractRestaurantInfo ?e ?f ?S] =>
      after_stage (extractRestaurantInfo_run e f S)
  | |- context [extractStyle ?e ?f ?i ?S] =>
      after_stage (extractStyle_run e f i S)
  | |- context [extractFramesFromTimestamps ?e ?v ?fr ?d ?S] =>
      after_stage (extractFramesFromTimestamps_run e v fr d S)
  | |- context [cleanup ?e ?f ?S] =>
      let rel := fresh "rel" in
      let H := fresh "H" in
      destruct (cleanup_run e f S) as (rel & H); rewrite H; clear H; eval_js
  end.

Ltac case_outcome :=
  match goal with
  | |- context [match ?x with _ => _ end] =>
      match x with
      | uploaded _ => destruct x eqn:?
      | getMetadata _ => destruct x eqn:?
      | framesOutcome _ _ => destruct x eqn:?
      | menuOutcome _ => destruct x eqn:?
      | infoOutcome _ => destruct x eqn:?
      | styleOutcome _ _ => destruct x eqn:?
      | materialiseOutcome _ _ => destruct x eqn:?
      | extractFrames _ => destruct x eqn:?
      | extractRestaurantData _ _ => destruct x eqn:?
      | truthy _ => destruct x eqn:?
      end
  end; eval_js.

(** What one call of [extract] leaves behind: the run it created, marked
    and saved according to the outcome. *)
Lemma extract_run (env : Env) (videoPath : string) (options : Options)
    (s : State) :
  ∃ lg s',
    extract env videoPath options s = (primaryOutcome env, s') ∧
    x_logger s' = Some lg ∧
    runId lg = x_uuid s ∧
    (x_uuid s < x_uuid s')%nat ∧
    match primaryOutcome env with
    | Threw e =>
        status lg = failed ∧ error lg = Some e ∧
        d_runs (x_disk s') = <[x_uuid s := lg]> (d_runs (x_disk s))
    | Returned res =>
        status lg = completed ∧ result lg = Some res ∧
        quality lg = Some (assessQuality res) ∧
        d_runs (x_disk s') = <[x_uuid s := lg]> (d_runs (x_disk s))
    | Pending =>
        status lg = running ∧ x_disk s' = x_disk s
    end.
Proof.
  destruct s as [u dk lg0 fl rel].
  unfold primaryOutcome, join3.
  unfold extract, new_logger, logger_save, set_file, promise_all3, try_finally,
    try_catch, startStep, step_complete, step_fail, on_logger, bind, ret,
    throw, await, uuidv4.
  eval_js. repeat first [stage | case_outcome].
  all: do 2 eexists; split; [reflexivity|]; eval_js;
       repeat split; try reflexivity; lia.
Qed.

Lemma extractFrameBased_pure (env : Env) (videoPath : string)
    (options : Options) (s : State) :
  extractFrameBased env videoPath options s =
  (fallbackOutcome env videoPath options, s).
Proof.
  unfold fallbackOutcome, extractFrameBased, convertible, bind, await, ret,
    throw.
  destruct (extractFrames env) as [fr|e]; [|reflexivity].
  destruct (extractRestaurantData env fr) as [[d|msg]|e]; reflexivity.
Qed.

Lemma fallbackOutcome_settles (env : Env) (videoPath : string)
    (options : Options) :
  fallbackOutcome env videoPath options ≠ Pending ∧
  ∀ res, fallbackOutcome env videoPath options = Returned res →
         isComplete res.
Proof.
  unfold fallbackOutcome, extractFrameBased, convertible, bind, await, ret,
    throw.
  destruct (extractFrames env) as [fr|e]; cbn; [|split; [done|discriminate]].
  destruct (extractRestaurantData env fr) as [[d|msg]|e]; cbn;
    (split; [done|]); [|discriminate..].
  intros res [= <-]. repeat split; by eexists.
Qed.

#[local] Arguments extract : simpl never.
#[local] Arguments extractFrameBased : simpl never.

(** C4: when the primary pipeline throws, the original run is on disk with
    status failed; a second run with another identifier and
    [usedFallback = true] in its metadata is created and saved; the caller
    gets an error exactly when the frame-based pipeline throws too, and
    otherwise a complete result with the second run's identifier. *)
Theorem C4_fallback_after_failure (env : Env) (videoPath : string)
    (options : Options) (s : State) (e : string) :
  (extract env videoPath options s).1 = Threw e →
  ∃ run1 run2 out s',
    extractWithFallback env videoPath options s = (out, s') ∧
    d_runs (x_disk s') !! x_uuid s = Some run1 ∧
    runId run1 = x_uuid s ∧ status run1 = failed ∧ error run1 = Some e ∧
    x_logger s' = Some run2 ∧
    runId run2 ≠ runId run1 ∧
    metadata run2 !! "usedFallback" = Some (MBool true) ∧
    d_runs (x_disk s') !! runId run2 = Some run2 ∧
    (∀ e2, out = Threw e2 ↔
           fallbackOutcome env videoPath options = Threw e2) ∧
    (∀ e2, out = Threw e2 → status run2 = failed ∧ error run2 = Some e2) ∧
    (∀ res, fallbackOutcome env videoPath options = Returned res →
            out = Returned (res, Some (runId run2)) ∧ isComplete res ∧
            status run2 = completed ∧ result run2 = Some res).
Proof.
  intros Hthrow.
  destruct (extract_run env videoPath options s)
    as (lg & s1 & Hrun & Hlg & Hid & Hlt & Hout).
  rewrite Hrun in Hthrow. cbn in Hthrow. rewrite Hthrow in Hout, Hrun.
  destruct Hout as (Hst & Herr & Hdisk).
  destruct (fallbackOutcome_settles env videoPath options) as [Hnp Hcomplete].
  destruct s1 as [u1 dk1 lg1 fl1 rel1]. cbn in *. subst lg1.
  unfold extractWithFallback, try_catch, bind, new_logger, on_logger,
    logger_save, throw, getRunId.
  rewrite Hrun. eval_js. rewrite extractFrameBased_pure.
  destruct (fallbackOutcome env videoPath options) as [res|e2|] eqn:Hfb;
    [| |done]; eval_js.
  - exists lg. do 3 eexists. split; [reflexivity|]. eval_js.
    rewrite lookup_insert_ne by lia. rewrite Hdisk, !lookup_insert_eq, Hid.
    split_and!; try reflexivity.
    all: eval_js; rewrite ?lookup_insert_eq; try done; try lia.
    intros res0 [= <-]. split_and!; try done. by apply Hcomplete.
  - exists lg. do 3 eexists. split; [reflexivity|]. eval_js.
    rewrite lookup_insert_ne by lia. rewrite Hdisk, !lookup_insert_eq, Hid.
    split_and!; try reflexivity.
    all: eval_js; rewrite ?lookup_insert_eq; try done; try lia.
    + intros e3. split; intros [= <-]; done.
    + intros e3 [= <-]. done.
Qed.

(** A directory with a video whose frame-selection call is rejected. *)
Lemma C4_fallback_after_failure_witness :
  ∃ run1 run2 out s',
    extractWithFallback framesDown "visit.mp4" sampleOptions initial
      = (out, s') ∧
    d_runs (x_disk s') !! 0%nat = Some run1 ∧
    runId run1 = 0%nat ∧ status run1 = failed ∧
    error run1 = Some "503 Service Unavailable" ∧
    x_logger s' = Some run2 ∧
    runId run2 ≠ runId run1 ∧
    metadata run2 !! "usedFallback" = Some (MBool true) ∧
    d_runs (x_disk s') !! runId run2 = Some run2 ∧
    (∀ e2, out = Threw e2 ↔
           fallbackOutcome framesDown "visit.mp4" sampleOptions = Threw e2) ∧
    (∀ e2, out = Threw e2 → status run2 = failed ∧ error run2 = Some e2) ∧
    (∀ res, fallbackOutcome framesDown "visit.mp4" sampleOptions
              = Returned res →
            out = Returned (res, Some (runId run2)) ∧ isComplete res ∧
            status run2 = completed ∧ result run2 = Some res).
Proof.
  apply (C4_fallback_after_failure framesDown "visit.mp4" sampleOptions
           initial "503 Service Unavailable").
  vm_compute. reflexivity.
Defined.

(** *** When the primary run fails *)

(** A stage throws exactly when its analyze call is rejected. *)
Lemma framesOutcome_cases (env : Env) (m : VideoMetadata) :
  (∃ e, framesOutcome env (vm_duration m) = Threw e ∧
        noDuration (Resolves m) || rejects (generateFrames env) = true) ∨
  (∃ v, framesOutcome env (vm_duration m) = Returned v ∧
        noDuration (Resolves m) || rejects (generateFrames env) = false).
Proof.
  unfold framesOutcome. destruct m as [[d|msg] sz]; cbn; [|eauto].
  destruct (generateFrames env) as [[t [p|msg]]|e]; cbn; eauto.
Qed.

Lemma menuOutcome_cases (env : Env) :
  (∃ e, menuOutcome env = Threw e ∧ rejects (generatePass1 env) = true) ∨
  (∃ v, menuOutcome env = Returned v ∧ rejects (generatePass1 env) = false).
Proof.
  unfold menuOutcome.
  destruct (generatePass1 env) as [[t [p|msg]]|e]; cbn; eauto.
  destruct (length (default [] (pm_items p)) =? 0)%nat; eauto.
  destruct (generatePass2 env (default [] (pm_items p)))
    as [[t2 [p2|msg2]]|e2]; eauto.
Qed.

Lemma infoOutcome_cases (env : Env) :
  (∃ e, infoOutcome env = Threw e ∧ rejects (generateInfo env) = true) ∨
  (infoOutcome env = Returned (infoContext env) ∧
   rejects (generateInfo env) = false).
Proof.
  unfold infoOutcome. destruct (generateInfo env); cbn; eauto.
Qed.

Lemma styleOutcome_cases (env : Env) (info : RestaurantInfo) :
  (∃ e, styleOutcome env info = Threw e ∧
        rejects (generateStyle env info) = true) ∨
  (∃ v, styleOutcome env info = Returned v ∧
        rejects (generateStyle env info) = false).
Proof.
  unfold styleOutcome.
  destruct (generateStyle env info) as [[t [p|msg]]|e]; cbn; eauto.
Qed.

Lemma materialiseOutcome_cases (env : Env) (frames : list Frame) :
  (∃ e, materialiseOutcome env frames = Threw e ∧ rejects (mkdir env) = true) ∨
  (∃ v, materialiseOutcome env frames = Returned v ∧
        rejects (mkdir env) = false).
Proof.
  unfold materialiseOutcome. destruct (mkdir env); cbn; eauto.
Qed.

Lemma primaryThrows_spec (env : Env) :
  match primaryOutcome env with
  | Threw _ => primaryThrows env = true
  | Returned _ => primaryThrows env = false
  | Pending => primaryThrows env = false ∧ uploaded env = Pending
  end.
Proof.
  unfold primaryThrows, primaryOutcome, join3.
  destruct (uploaded env) as [file|e|]; [|done..].
  destruct (getMetadata env) as [m|e]; [|done]. cbn [rejects orb].
  destruct (framesOutcome_cases env m)
    as [(e & -> & ->)|(fr & -> & ->)]; [done|].
  destruct (menuOutcome_cases env) as [(e & -> & ->)|(mn & -> & ->)]; [done|].
  destruct (infoOutcome_cases env) as [(e & -> & ->)|(-> & ->)]; [done|].
  destruct (styleOutcome_cases env (infoContext env))
    as [(e & -> & ->)|(st & -> & ->)]; [done|].
  destruct (materialiseOutcome_cases env fr)
    as [(e & -> & ->)|(ok & -> & ->)]; done.
Qed.

(** *** Parse failures are absorbed *)







(** The status of the run [extract] leaves behind, by outcome. *)
Lemma extract_finalStatus (env : Env) (videoPath : string) (options : Options)
    (s : State) :
  (extract env videoPath options s).1 = primaryOutcome env ∧
  finalStatus (extract env videoPath options s).2 =
    Some match primaryOutcome env with
         | Returned _ => completed
         | Threw _ => failed
         | Pending => running
         end.
Proof.
  destruct (extract_run env videoPath options s)
    as (lg & s' & -> & Hlg & _ & _ & H).
  split; [reflexivity|]. unfold finalStatus. cbn [snd]. rewrite Hlg. cbn.
  f_equal. destruct (primaryOutcome env); by destruct_and?.
Qed.




(** * Further properties *)

(** ** Quality scorer: ranges and issues *)

Lemma num_nonneg (n : nat) : 0 <= num n.
Proof.
  unfold num. change 0 with (inject_Z 0). rewrite <- Zle_Qle. lia.
Qed.

Lemma num_le_mono (n m : nat) : (n ≤ m)%nat → num n <= num m.
Proof. intros H. unfold num. rewrite <- Zle_Qle. lia. Qed.

(** A part [n / k · w] of a score, for a count below its target. *)
Lemma share_bounds (n k : nat) (w : Q) :
  (n < k)%nat → 0 <= w → 0 <= num n / num k * w ∧ num n / num k * w <= w.
Proof.
  intros Hlt Hw.
  assert (Hk : 0 < num k) by (apply num_pos; lia).
  assert (Hn : 0 <= num n) by apply num_nonneg.
  assert (Hnk : num n <= num k) by (apply num_le_mono; lia).
  assert (H0 : 0 <= num n / num k).
  { apply Qle_shift_div_l; [exact Hk|]. lra. }
  assert (H1 : num n / num k <= 1).
  { apply Qle_shift_div_r; [exact Hk|]. lra. }
  split; nra.
Qed.

Lemma toFixed2_unit (x : Q) :
  0 <= x → x <= 1 → 0 <= toFixed2 x ∧ toFixed2 x <= 1.
Proof.
  intros H0 H1. unfold toFixed2.
  assert (Hb : Qle_bool 0 x = true) by (by apply Qle_bool_iff).
  rewrite Hb.
  assert (Ha : Qabs x == x) by (by apply Qabs_pos).
  set (y := Qabs x * 100 + (1 # 2)).
  assert (Hy0 : 0 <= y) by (unfold y; lra).
  assert (Hy1 : y <= 100 + (1 # 2)) by (unfold y; lra).
  assert (Hf0 : (0 <= Qfloor y)%Z).
  { change 0%Z with (Qfloor 0). by apply Qfloor_resp_le. }
  assert (Hf1 : (Qfloor y <= 100)%Z).
  { change 100%Z with (Qfloor (100 + (1 # 2))). by apply Qfloor_resp_le. }
  assert (Hq0 : 0 <= inject_Z (Qfloor y)).
  { change 0 with (inject_Z 0). by rewrite <- Zle_Qle. }
  assert (Hq1 : inject_Z (Qfloor y) <= 100).
  { change 100 with (inject_Z 100). by rewrite <- Zle_Qle. }
  assert (Hd : inject_Z (Qfloor y) / 100 == inject_Z (Qfloor y) * (1 # 100))
    by field.
  split; lra.
Qed.

Lemma scores_restaurantInfo_unit (result : ExtractionResult) :
  0 <= scores_restaurantInfo result ∧ scores_restaurantInfo result <= 1.
Proof.
  unfold scores_restaurantInfo.
  destruct (hasName result), (hasCuisine result), (hasDescription result);
    split; lra.
Qed.

Lemma scores_frames_unit (result : ExtractionResult) :
  0 <= scores_frames result ∧ scores_frames result <= 1.
Proof.
  unfold scores_frames.
  assert (Hn : 0 <= (if (8 <=? length (frames result))%nat then 0.3
                     else num (length (frames result)) / 8 * 0.3) ∧
               (if (8 <=? length (frames result))%nat then 0.3
                else num (length (frames result)) / 8 * 0.3) <= 0.3).
  { destruct (8 <=? length (frames result))%nat eqn:E; [split; lra|].
    apply Nat.leb_gt in E.
    apply (share_bounds _ 8 0.3); [exact E | lra]. }
  assert (Hh : 0 <= (if (3 <=? highPriorityFrames result)%nat then 0.2
                     else num (highPriorityFrames result) / 3 * 0.2) ∧
               (if (3 <=? highPriorityFrames result)%nat then 0.2
                else num (highPriorityFrames result) / 3 * 0.2) <= 0.2).
  { destruct (3 <=? highPriorityFrames result)%nat eqn:E; [split; lra|].
    apply Nat.leb_gt in E.
    apply (share_bounds _ 3 0.2); [exact E | lra]. }
  destruct Hn as [Hn0 Hn1], Hh as [Hh0 Hh1].
  destruct (hasFood result), (hasExterior result), (hasInterior result);
    split; lra.
Qed.

Lemma scores_style_unit (result : ExtractionResult) :
  0 <= scores_style result ∧ scores_style result <= 1.
Proof. unfold scores_style. destruct (isDefaultStyle result); split; lra. Qed.

(** X1: whatever the result, the restaurant-info, frames and style scores
    lie between 0 and 1, computed and as reported. *)
Theorem X1_dimension_scores_in_unit (result : ExtractionResult) :
  (0 <= scores_restaurantInfo result ∧ scores_restaurantInfo result <= 1) ∧
  (0 <= scores_frames result ∧ scores_frames result <= 1) ∧
  (0 <= scores_style result ∧ scores_style result <= 1) ∧
  (0 <= sc_restaurantInfo (q_scores (assessQuality result)) ∧
   sc_restaurantInfo (q_scores (assessQuality result)) <= 1) ∧
  (0 <= sc_frames (q_scores (assessQuality result)) ∧
   sc_frames (q_scores (assessQuality result)) <= 1) ∧
  (0 <= sc_style (q_scores (assessQuality result)) ∧
   sc_style (q_scores (assessQuality result)) <= 1).
Proof.
  pose proof (scores_restaurantInfo_unit result) as [Hi0 Hi1].
  pose proof (scores_frames_unit result) as [Hf0 Hf1].
  pose proof (scores_style_unit result) as [Hs0 Hs1].
  cbn [assessQuality q_scores sc_restaurantInfo sc_frames sc_style].
  split_and!; try done; by apply toFixed2_unit.
Qed.

Lemma count_le_length {A} (p : A → bool) (l : list A) :
  (count p l ≤ length l)%nat.
Proof.
  unfold count. induction l as [|x l IH]; cbn; [lia|].
  destruct (p x); cbn; lia.
Qed.

Lemma sum_confidence_bounds (l : list MenuItem) :
  Forall (λ i, 0 <= or_zero (mi_confidence i) ∧ or_zero (mi_confidence i) <= 1)
    l →
  0 <= fold_right Qplus 0 ((λ i, or_zero (mi_confidence i)) <$> l) ∧
  fold_right Qplus 0 ((λ i, or_zero (mi_confidence i)) <$> l)
    <= num (length l).
Proof.
  induction 1 as [|i l [H0 H1] _ [IH0 IH1]];
    cbn [fmap list_fmap fold_right length].
  - change (num 0%nat) with 0. split; lra.
  - rewrite num_S. split; lra.
Qed.

Lemma avgConfidence_unit (result : ExtractionResult) :
  confidencesInUnit result →
  0 <= avgConfidence result ∧ avgConfidence result <= 1.
Proof.
  intros Hc. rewrite avgConfidence_mean. unfold mean, confidencesInUnit in *.
  destruct (menuItems result) as [|i l]; [cbn; split; lra|].
  destruct (sum_confidence_bounds _ Hc) as [H0 H1].
  rewrite length_fmap.
  set (sm := fold_right Qplus 0 _) in *.
  assert (Hn : 0 < num (length (i :: l))) by (apply num_pos; cbn; lia).
  cbn [fmap list_fmap]. fold sm.
  split.
  - apply Qle_shift_div_l; [exact Hn|]. lra.
  - apply Qle_shift_div_r; [exact Hn|]. lra.
Qed.

Lemma scores_menu_unit (result : ExtractionResult) :
  confidencesInUnit result →
  0 <= scores_menu result ∧ scores_menu result <= 1.
Proof.
  intros Hc. destruct (avgConfidence_unit result Hc) as [Ha0 Ha1].
  unfold scores_menu.
  assert (Hm : 0 <= Qmin 1 (num (menuCount result) / 5) ∧
               Qmin 1 (num (menuCount result) / 5) <= 1).
  { split; [|apply Q.le_min_l].
    apply Q.min_glb; [lra|].
    apply Qle_shift_div_l; [reflexivity|]. pose proof (num_nonneg (menuCount result)). lra. }
  assert (Hr : 0 <= num (needsReviewCount result)
                      / num (Nat.max (menuCount result) 1) ∧
               num (needsReviewCount result)
                 / num (Nat.max (menuCount result) 1) <= 1).
  { assert (Hk : 0 < num (Nat.max (menuCount result) 1))
      by (apply num_pos; lia).
    pose proof (num_nonneg (needsReviewCount result)) as Hn.
    assert (Hle : num (needsReviewCount result)
                  <= num (Nat.max (menuCount result) 1)).
    { apply num_le_mono. pose proof (count_le_length mi_needsReview (menuItems result)).
      unfold needsReviewCount, menuCount. lia. }
    split.
    - apply Qle_shift_div_l; [exact Hk|]. lra.
    - apply Qle_shift_div_r; [exact Hk|]. lra. }
  destruct Hm as [Hm0 Hm1], Hr as [Hr0 Hr1].
  set (a := Qmin 1 _) in *. set (b := num (needsReviewCount result) / _) in *.
  split; lra.
Qed.

(** X2: when every item confidence lies between 0 and 1, so do the menu
    score and the overall score, computed and as reported; the scorer does
    not clamp, and a confidence of 5 gives a menu score above 1. *)
Theorem X2_menu_and_overall_in_unit :
  (∀ result : ExtractionResult,
     confidencesInUnit result →
     (0 <= scores_menu result ∧ scores_menu result <= 1) ∧
     (0 <= overall result ∧ overall result <= 1) ∧
     (0 <= q_overall (assessQuality result) ∧
      q_overall (assessQuality result) <= 1)) ∧
  1 < scores_menu overconfident.
Proof.
  split; [|reflexivity].
  intros result Hc.
  pose proof (scores_menu_unit result Hc) as [Hm0 Hm1].
  pose proof (scores_restaurantInfo_unit result) as [Hi0 Hi1].
  pose proof (scores_frames_unit result) as [Hf0 Hf1].
  pose proof (scores_style_unit result) as [Hs0 Hs1].
  assert (Ho : 0 <= overall result ∧ overall result <= 1)
    by (unfold overall; split; lra).
  destruct Ho as [Ho0 Ho1].
  split_and!; try done.
  all: cbn [assessQuality q_overall]; by apply toFixed2_unit.
Qed.

(** The worked example of the menu score has confidences in range. *)
Lemma X2_menu_and_overall_in_unit_witness :
  confidencesInUnit threeItems ∧
  0 <= overall threeItems ∧ overall threeItems <= 1.
Proof.
  assert (H : confidencesInUnit threeItems).
  { repeat constructor; cbn; lra. }
  split; [exact H|].
  exact (proj1 (proj2 (proj1 X2_menu_and_overall_in_unit threeItems H))).
Defined.

Lemma existsb_critical_push_if (c : bool) (cat : Category) (m : Message) :
  existsb is_critical
    (push_if c {| i_type := warning; i_category := cat; i_message := m |})
  = false.
Proof. by destruct c. Qed.

Lemma critical_issues_bool (result : ExtractionResult) :
  existsb is_critical (issues result) =
  (menuCount result =? 0)%nat || (length (frames result) =? 0)%nat.
Proof.
  unfold issues, menu_issues, info_issues, frames_issues, style_issues.
  rewrite !existsb_app, !existsb_critical_push_if.
  destruct (menuCount result =? 0)%nat, (length (frames result) =? 0)%nat,
    (negb (hasName result));
    cbn; rewrite ?existsb_critical_push_if; reflexivity.
Qed.

(** X3: the issue list holds a critical issue exactly when there is no menu
    item or no frame; such a result is rated poor whatever its scores. *)
Theorem X3_critical_issues (result : ExtractionResult) :
  (has_critical (q_issues (assessQuality result)) ↔
     menuCount result = 0%nat ∨ frames result = []) ∧
  (menuCount result = 0%nat ∨ frames result = [] →
     q_rating (assessQuality result) = poor).
Proof.
  assert (H : has_critical (issues result) ↔
              menuCount result = 0%nat ∨ frames result = []).
  { rewrite <- existsb_is_critical, critical_issues_bool, orb_true_iff,
      Nat.eqb_eq, length_zero_nil. done. }
  split; [exact H|].
  intros Hz. apply H in Hz. exact (proj1 (rating_cascade result) Hz).
Qed.

(** An empty result has a critical issue. *)
Lemma X3_critical_issues_witness :
  q_rating (assessQuality emptyResult) = poor.
Proof.
  apply (proj2 (X3_critical_issues emptyResult)). by left.
Defined.

Lemma push_if_nil (c : bool) (i : Issue) : push_if c i = [] ↔ c = false.
Proof. by destruct c. Qed.

Lemma critical_or_push_nil (c1 c2 : bool) (i1 i2 : Issue) :
  (if c1 then [i1] else push_if c2 i2) = [] ↔ c1 = false ∧ c2 = false.
Proof. destruct c1, c2; cbn; split; try done; by intros [? ?]. Qed.

Lemma issues_nil (result : ExtractionResult) :
  issues result = [] ↔ flawless result.
Proof.
  unfold issues, menu_issues, info_issues, frames_issues, style_issues,
    flawless.
  rewrite !app_nil, !critical_or_push_nil, !push_if_nil.
  rewrite !andb_false_iff, !negb_false_iff, !Nat.eqb_neq, !Nat.ltb_ge.
  pose proof (num_lt_spec (avgConfidence result) 0.6) as Ha.
  pose proof (num_lt_spec (nameConfidence result) 0.7) as Hn.
  destruct (num_lt (avgConfidence result) 0.6) eqn:Ea,
    (num_lt (nameConfidence result) 0.7) eqn:En.
  all: destruct (hasName result), (hasCuisine result), (hasFood result),
         (hasExterior result), (hasInterior result),
         (isDefaultStyle result); cbn.
  all: split; intros H; destruct_and?; destruct_or?; try discriminate;
       try lia.
  all: try (assert (avgConfidence result < 0.6) by (by apply Ha); lra).
  all: try (assert (nameConfidence result < 0.7) by (by apply Hn); lra).
  all: try (split_and!; try done; try lia; eauto;
            try (apply Qnot_lt_le; intros Hlt; apply Ha in Hlt; discriminate);
            try (apply Qnot_lt_le; intros Hlt; apply Hn in Hlt; discriminate)).
Qed.

Lemma good_rating_needs (result : ExtractionResult) :
  (issues result = [] → flawless result) ∧
  (q_rating (assessQuality result) = good →
     0.8 <= overall result ∧ flawless result).
Proof.
  pose proof (issues_nil result) as Hi.
  split; [by apply Hi|].
  destruct (rating_cascade result) as [Hc Hn].
  cbn [assessQuality q_rating].
  intros Hg. destruct (classic_critical (issues result)) as [H|H].
  - apply Hc in H. congruence.
  - apply (Hn H) in Hg as [H8 H0]. split; [exact H8|]. by apply Hi.
Qed.

(** X4: a result is rated good exactly when its overall score reaches 0.8
    and no issue is raised, that is with at least three menu items, not all
    of them flagged, an average confidence of 0.6, a price somewhere, a
    name known with confidence 0.7, a cuisine, five frames with food and
    an exterior or interior shot, and a style that is not the default. *)
Theorem X4_good_rating (result : ExtractionResult) :
  (q_issues (assessQuality result) = [] ↔ flawless result) ∧
  (q_rating (assessQuality result) = good ↔
     0.8 <= overall result ∧ flawless result).
Proof.
  pose proof (issues_nil result) as Hi.
  split; [exact Hi|].
  destruct (rating_cascade result) as [Hc Hn].
  cbn [assessQuality q_rating]. split.
  - intros Hg. destruct (classic_critical (issues result)) as [H|H].
    + apply Hc in H. congruence.
    + apply (Hn H) in Hg as [H8 H0]. split; [exact H8|]. by apply Hi.
  - intros [H8 Hf]. apply Hi in Hf.
    assert (H : ¬ has_critical (issues result)).
    { rewrite Hf. intros (i & Hin & _). by apply elem_of_nil in Hin. }
    by apply (Hn H).
Qed.

(** ** Degraded results are never rated good *)

Lemma count_all {A} (p : A → bool) (l : list A) :
  Forall (λ x, p x = true) l → count p l = length l.
Proof.
  unfold count. induction 1 as [|x l Hx _ IH]; cbn; [done|].
  rewrite Hx. cbn. by rewrite IH.
Qed.

Lemma flagged_menu_not_flawless (result : ExtractionResult) :
  Forall (λ i, mi_needsReview i = true) (menuItems result) →
  ¬ flawless result.
Proof.
  intros Hall (_ & Hne & _). apply Hne.
  unfold needsReviewCount, menuCount. by apply count_all.
Qed.

Lemma good_flawless (result : ExtractionResult) :
  q_rating (assessQuality result) = good → flawless result.
Proof. intros H. by apply good_rating_needs in H as [_ H]. Qed.

Lemma has_uniq (l : list string) (x : string) :
  has (uniq l) x = true → x ∈ l.
Proof.
  unfold has. rewrite existsb_exists. intros (y & Hin & Heq).
  apply String.eqb_eq in Heq. subst y. apply list_elem_of_In in Hin.
  clear -Hin. induction l as [|a l IH]; cbn in Hin; [done|].
  apply elem_of_cons in Hin as [->|Hin]; [left|right].
  apply list_elem_of_filter in Hin as [_ Hin]. by apply IH.
Qed.

(** The frames written are among the frames asked for, as to type. *)
Lemma materialise_types (env : Env) (l : list Frame) :
  f_type <$> (materialise env l).1 ⊆ f_type <$> l.
Proof.
  induction l as [|f l IH]; cbn [materialise]; [done|].
  destruct (materialise env l) as [ok ko]. cbn [fst] in IH.
  assert (Hr : f_type <$> ok ⊆ f_type f :: (f_type <$> l)).
  { intros x Hx. right. by apply IH. }
  destruct (f_timestamp f); [destruct (extractFrameAt env f)|];
    cbn [fst fmap list_fmap f_type]; try exact Hr.
  intros x Hx. apply elem_of_cons in Hx as [->|Hx]; [by left|].
  right. by apply IH.
Qed.

Lemma primaryOutcome_returned (env : Env) (res : ExtractionResult) :
  primaryOutcome env = Returned res →
  ∃ file m fr menu style,
    uploaded env = Returned file ∧
    getMetadata env = Resolves m ∧
    framesOutcome env (vm_duration m) = Returned fr ∧
    menuOutcome env = Returned menu ∧
    infoOutcome env = Returned (infoContext env) ∧
    styleOutcome env (infoContext env) = Returned style ∧
    res = {| r_frames := (materialise env fr).1;
             r_menuItems := Some menu;
             r_restaurantInfo := Some (infoContext env);
             r_style := Some style |}.
Proof.
  unfold primaryOutcome, join3.
  destruct (uploaded env) as [file|e|]; [|done..].
  destruct (getMetadata env) as [m|e]; [|done].
  destruct (framesOutcome_cases env m)
    as [(e & -> & _)|(fr & Hfr & _)]; [done|]. rewrite Hfr.
  destruct (menuOutcome_cases env) as [(e & -> & _)|(mn & Hmn & _)]; [done|].
  rewrite Hmn.
  destruct (infoOutcome_cases env) as [(e & -> & _)|(Hin & _)]; [done|].
  rewrite Hin.
  destruct (styleOutcome_cases env (infoContext env))
    as [(e & -> & _)|(st & Hst & _)]; [done|]. rewrite Hst.
  unfold materialiseOutcome. destruct (mkdir env); [|done].
  intros [= <-]. by exists file, m, fr, mn, st.
Qed.

(** X5: a result of the frame-based pipeline always raises an issue, so it
    is never rated good. *)
Theorem X5_frame_based_never_good (env : Env) (videoPath : string)
    (options : Options) (s s' : State) (res : ExtractionResult) :
  extractFrameBased env videoPath options s = (Returned res, s') →
  q_issues (assessQuality res) ≠ [] ∧ q_rating (assessQuality res) ≠ good.
Proof.
  rewrite extractFrameBased_pure. intros [= Hres _].
  assert (Hnf : ¬ flawless res).
  { apply flagged_menu_not_flawless. revert Hres.
    unfold fallbackOutcome.
    unfold extractFrameBased, convertible, bind, await, ret, throw.
    destruct (extractFrames env) as [fr|e]; [|done].
    destruct (extractRestaurantData env fr) as [[data|msg]|e]; [|done..].
    intros [= <-]. unfold menuItems. cbn.
    destruct (ed_menuItems data); [|constructor].
    apply Forall_fmap, Forall_forall. done. }
  split.
  - intros Hi. by apply Hnf, (proj1 (good_rating_needs res)).
  - intros Hg. by apply Hnf, good_flawless.
Qed.

(** The frame-based pipeline on the sample answers. *)
Lemma X5_frame_based_never_good_witness :
  q_issues (assessQuality legacyResult) ≠ [] ∧
  q_rating (assessQuality legacyResult) ≠ good.
Proof.
  apply (X5_frame_based_never_good calmEnv "visit.mp4" sampleOptions
           initial initial legacyResult).
  vm_compute. reflexivity.
Defined.

Lemma fallbackFrames_types (d : Q) (x : string) :
  x ∈ f_type <$> fallbackFrames d → x = "unknown".
Proof.
  rewrite list_elem_of_fmap. intros (f & -> & Hin).
  apply list_elem_of_lookup in Hin as [i Hi].
  apply fallbackFrames_lookup in Hi as [_ ->]. reflexivity.
Qed.

(** X6: a primary run rated good had no absorbed failure: the responses of
    frame selection, menu pass 1, menu pass 2, restaurant info and style
    all parsed (and pass 2 was not rejected). *)
Theorem X6_good_run_all_parsed (env : Env) (videoPath : string)
    (options : Options) (s : State) (res : ExtractionResult) :
  (extract env videoPath options s).1 = Returned res →
  q_rating (assessQuality res) = good →
  allParsed env.
Proof.
  intros Hret Hgood.
  destruct (extract_run env videoPath options s) as (lg & s' & Hrun & _).
  rewrite Hrun in Hret. cbn [fst] in Hret.
  apply primaryOutcome_returned in Hret
    as (file & m & fr & menu & style & _ & _ & Hfr & Hmenu & Hinfo & Hstyle
        & ->).
  apply good_flawless in Hgood
    as (H3 & Hnr & _ & _ & Hname & _ & _ & _ & Hfood & _ & Hdef).
  unfold allParsed. split_and!.
  - unfold framesOutcome in Hfr.
    destruct (vm_duration m) as [d|nan]; [|done].
    destruct (generateFrames env) as [[t [p|msg]]|e]; [by exists t, p| |done].
    exfalso. cbn in Hfr. injection Hfr as <-.
    apply has_uniq in Hfood. cbn [frames r_frames] in Hfood.
    apply materialise_types, fallbackFrames_types in Hfood. discriminate.
  - unfold menuOutcome in Hmenu.
    destruct (generatePass1 env) as [[t [p|msg]]|e]; [by exists t, p| |done].
    exfalso. cbn in Hmenu. injection Hmenu as <-.
    unfold menuCount, menuItems in H3. cbn in H3. lia.
  - unfold menuOutcome, pass1Items in *.
    destruct (generatePass1 env) as [[t [p|msg]]|e]; cbn in Hmenu |- *;
      [| |done].
    + destruct (length (default [] (pm_items p)) =? 0)%nat.
      { exfalso. injection Hmenu as <-.
        unfold menuCount, menuItems in H3. cbn in H3. lia. }
      destruct (generatePass2 env (default [] (pm_items p)))
        as [[t2 [p2|msg2]]|e2]; [by exists t2, p2|..].
      all: exfalso; injection Hmenu as <-; apply Hnr;
        unfold needsReviewCount, menuCount, menuItems; cbn;
        apply count_all, Forall_fmap, Forall_forall; done.
    + exfalso. injection Hmenu as <-.
      unfold menuCount, menuItems in H3. cbn in H3. lia.
  - unfold infoContext in Hname. unfold infoOutcome in Hinfo.
    destruct (generateInfo env) as [[t [p|msg]]|e]; [by exists t, p| |done].
    exfalso. cbn in Hname. discriminate.
  - unfold styleOutcome in Hstyle.
    destruct (generateStyle env (infoContext env)) as [[t [p|msg]]|e];
      [by exists t, p| |done].
    exfalso. cbn in Hstyle. injection Hstyle as <-. cbn in Hdef. discriminate.
Qed.

(** A run on rich answers that is rated good. *)
Lemma X6_good_run_all_parsed_witness :
  q_rating (assessQuality brightResult) = good ∧ allParsed brightEnv.
Proof.
  assert (H : q_rating (assessQuality brightResult) = good)
    by (vm_compute; reflexivity).
  split; [exact H|].
  apply (X6_good_run_all_parsed brightEnv "visit.mp4" sampleOptions initial
           brightResult); [vm_compute; reflexivity | exact H].
Defined.

(** ** Run ledger: files and index *)

Lemma filter_all {A} (P : A → Prop) `{!∀ x, Decision (P x)} (l : list A) :
  Forall P l → filter P l = l.
Proof.
  induction 1 as [|x l Hx _ IH]; [done|].
  rewrite filter_cons_True by done. by rewrite IH.
Qed.

Lemma updateIndex_idempotent (lg : ExtractionLogger)
    (old : option (list RunSummary)) :
  Logger.updateIndex lg (Some (Logger.updateIndex lg old)) =
  Logger.updateIndex lg old.
Proof.
  unfold Logger.updateIndex. cbv zeta. cbn [default].
  set (rest := filter (λ r, rs_runId r ≠ runId lg) (default [] old)).
  rewrite !firstn_cons. unfold id.
  rewrite filter_cons_False by (cbn; intros H; by apply H).
  rewrite (filter_all _ (take 99 rest)).
  - by rewrite take_take.
  - apply Forall_forall. intros r Hr.
    apply (subseteq_take 99 rest), list_elem_of_filter in Hr as [Hr _]. done.
Qed.

(** X7: a saved run is read back unchanged, saving it leaves the files of
    the other runs as they were, and saving the same run twice is the same
    as saving it once. *)
Theorem X7_save_load (lg : ExtractionLogger) (d : Disk) :
  Logger.load (runId lg) (Logger.save lg d) = Some lg ∧
  (∀ id, id ≠ runId lg →
         Logger.load id (Logger.save lg d) = Logger.load id d) ∧
  Logger.save lg (Logger.save lg d) = Logger.save lg d.
Proof.
  unfold Logger.load. cbn [Logger.save d_runs d_index]. split_and!.
  - apply lookup_insert_eq.
  - intros id Hne. by apply lookup_insert_ne.
  - by rewrite insert_insert_eq, updateIndex_idempotent.
Qed.

(** A second run leaves the file of the first alone. *)
Lemma X7_save_load_witness :
  Logger.load 0%nat (Logger.save (Logger.new 1%nat)
                       (Logger.save (Logger.new 0%nat) emptyDisk))
  = Some (Logger.new 0%nat).
Proof.
  rewrite (proj1 (proj2 (X7_save_load (Logger.new 1%nat)
                           (Logger.save (Logger.new 0%nat) emptyDisk))));
    [|discriminate].
  apply X7_save_load.
Defined.

Lemma save_indexMatchesFiles (lg : ExtractionLogger) (d : Disk) :
  indexMatchesFiles d → indexMatchesFiles (Logger.save lg d).
Proof.
  intros Hd r. unfold Logger.listRuns, Logger.load.
  cbn [Logger.save d_runs d_index]. unfold Logger.updateIndex. cbn zeta.
  intros Hr. apply (subseteq_take 100) in Hr.
  apply elem_of_cons in Hr as [->|Hr].
  - exists lg. split; [|reflexivity].
    change (rs_runId (Logger.summary lg)) with (runId lg).
    apply lookup_insert_eq.
  - apply list_elem_of_filter in Hr as [Hne Hr].
    rewrite lookup_insert_ne by done. apply Hd.
    unfold Logger.listRuns. by destruct (d_index d).
Qed.

Lemma saveAll_invariant (P : Disk → Prop) (saves : list ExtractionLogger)
    (d : Disk) :
  (∀ lg d, P d → P (Logger.save lg d)) → P d → P (saveAll saves d).
Proof.
  intros Hstep. revert d. unfold saveAll.
  induction saves as [|lg saves IH]; intros d Hd; cbn [fold_left]; [done|].
  apply IH, Hstep, Hd.
Qed.

(** X8: the index and the run files agree: after any saves into a directory
    where they agreed (an empty one, say), every index entry is the summary
    of the file stored under its run identifier. *)
Theorem X8_index_matches_files :
  (∀ (lg : ExtractionLogger) (d : Disk),
     indexMatchesFiles d → indexMatchesFiles (Logger.save lg d)) ∧
  (∀ saves : list ExtractionLogger,
     indexMatchesFiles (saveAll saves emptyDisk)).
Proof.
  split; [apply save_indexMatchesFiles|].
  intros saves. apply saveAll_invariant; [apply save_indexMatchesFiles|].
  intros r Hr. by apply elem_of_nil in Hr.
Qed.

(** Two runs saved into an empty directory. *)
Lemma X8_index_matches_files_witness :
  indexMatchesFiles (Logger.save (Logger.new 1%nat)
                       (Logger.save (Logger.new 0%nat) emptyDisk)).
Proof.
  apply (proj1 X8_index_matches_files).
  apply (proj2 X8_index_matches_files [Logger.new 0%nat]).
Defined.

Lemma firstPerRun_distinct (l : list RunSummary) :
  NoDup (rs_runId <$> l) → firstPerRun l = l.
Proof.
  induction l as [|r l IH]; [done|]. cbn [fmap list_fmap firstPerRun].
  rewrite NoDup_cons. intros [Hr Hl].
  rewrite IH by done. by rewrite filter_other_id_fresh.
Qed.

Lemma NoDup_fmap_same {A B} (f : A → B) (l : list A) (x y : A) :
  NoDup (f <$> l) → x ∈ l → y ∈ l → f x = f y → x = y.
Proof.
  induction l as [|a l IH]; [by intros _ ?%elem_of_nil|].
  cbn [fmap list_fmap]. rewrite NoDup_cons. intros [Ha Hl] Hx Hy Heq.
  apply elem_of_cons in Hx as [->|Hx]; apply elem_of_cons in Hy as [->|Hy].
  - done.
  - exfalso. apply Ha. rewrite Heq. apply list_elem_of_fmap. eauto.
  - exfalso. apply Ha. rewrite <- Heq. apply list_elem_of_fmap. eauto.
  - by apply IH.
Qed.

Lemma saveAll_load_last (saves : list ExtractionLogger) (d : Disk)
    (lg : ExtractionLogger) :
  lg ∈ saves →
  ∃ lg', Logger.load (runId lg) (saveAll saves d) = Some lg' ∧
         lg' ∈ saves ∧ runId lg' = runId lg.
Proof.
  induction saves as [|x saves IH] using rev_ind; [by intros ?%elem_of_nil|].
  rewrite saveAll_snoc. unfold Logger.load. cbn [Logger.save d_runs].
  intros Hin.
  destruct (decide (runId x = runId lg)) as [Heq|Hne].
  - exists x. rewrite <- Heq, lookup_insert_eq.
    split_and!; [done| |done]. apply elem_of_app. right. by left.
  - rewrite lookup_insert_ne by done.
    apply elem_of_app in Hin as [Hin|Hin].
    + destruct (IH Hin) as (lg' & Hl & Hin' & Hid).
      exists lg'. split_and!; [done| |done]. apply elem_of_app. by left.
    + apply list_elem_of_singleton in Hin. by subst.
Qed.

(** X9: when the runs saved have distinct identifiers, the index is the
    last 100 of them, newest first, and every one of them, in the index or
    not, is read back as saved. *)
Theorem X9_distinct_runs (saves : list ExtractionLogger) :
  NoDup (runId <$> saves) →
  Logger.listRuns (saveAll saves emptyDisk) =
    take 100 (Logger.summary <$> reverse saves) ∧
  (∀ lg, lg ∈ saves →
         Logger.load (runId lg) (saveAll saves emptyDisk) = Some lg).
Proof.
  intros Hnd. split.
  - destruct saves as [|lg0 saves0] eqn:E; [reflexivity|]. rewrite <- E in *.
    unfold Logger.listRuns. rewrite saveAll_index by (by subst).
    unfold recentRuns. rewrite firstPerRun_distinct; [done|].
    rewrite <- list_fmap_compose.
    change (rs_runId ∘ Logger.summary) with runId.
    by rewrite fmap_reverse, reverse_Permutation.
  - intros lg Hin.
    destruct (saveAll_load_last saves emptyDisk lg Hin)
      as (lg' & Hl & Hin' & Hid).
    rewrite Hl. f_equal.
    by apply (NoDup_fmap_same runId saves).
Qed.

(** After 101 runs the first is gone from the index and still on file. *)
Lemma X9_distinct_runs_witness :
  length (Logger.listRuns (saveAll (finishedRuns 101) emptyDisk)) = 100%nat ∧
  (0%nat ∉ rs_runId <$> Logger.listRuns (saveAll (finishedRuns 101) emptyDisk)) ∧
  Logger.load 0%nat (saveAll (finishedRuns 101) emptyDisk)
    = Some (Logger.fail "503 Service Unavailable" (Logger.new 0%nat)).
Proof.
  assert (Hnd : NoDup (runId <$> finishedRuns 101)).
  { unfold finishedRuns. rewrite <- list_fmap_compose.
    change (runId ∘ _) with (λ id : nat, id).
    rewrite list_fmap_id. apply NoDup_seq. }
  destruct (X9_distinct_runs (finishedRuns 101) Hnd) as [Hidx Hload].
  rewrite Hidx. split_and!.
  - vm_compute. reflexivity.
  - rewrite <- fmap_take, <- list_fmap_compose.
    change (rs_runId ∘ Logger.summary) with runId.
    intros Hin. vm_compute in Hin.
    repeat (apply elem_of_cons in Hin as [Hin|Hin]; [discriminate|]).
    by apply elem_of_nil in Hin.
  - apply (Hload (Logger.fail "503 Service Unavailable" (Logger.new 0%nat))).
    unfold finishedRuns. apply list_elem_of_fmap.
    exists 0%nat. split; [reflexivity|]. apply elem_of_seq. lia.
Defined.

(** ** Orchestrator: upload, materialisation, menu, cleanup *)

Lemma pollWhileProcessing_returned (f : RemoteFile) (n : nat)
    (polls : list (Remote RemoteFile)) (file : RemoteFile) (m : nat) :
  pollWhileProcessing f n polls = Returned (file, m) →
  rf_state file ≠ "PROCESSING" ∧ (n ≤ m ≤ n + length polls)%nat.
Proof.
  revert f n. induction polls as [|p polls IH]; intros f n;
    cbn [pollWhileProcessing].
  - destruct (String.eqb (rf_state f) "PROCESSING") eqn:E; [done|].
    intros [= <- <-]. apply String.eqb_neq in E. cbn. split; [done|lia].
  - destruct (String.eqb (rf_state f) "PROCESSING") eqn:E.
    + destruct p as [f'|e]; [|done]. intros H. apply IH in H as [H1 H2].
      cbn. split; [done|lia].
    + intros [= <- <-]. apply String.eqb_neq in E. cbn. split; [done|lia].
Qed.

Lemma pollWhileProcessing_pending (f : RemoteFile) (n : nat)
    (polls : list (Remote RemoteFile)) :
  pollWhileProcessing f n polls = Pending ↔
  rf_state f = "PROCESSING" ∧ Forall saysProcessing polls.
Proof.
  revert f n. induction polls as [|p polls IH]; intros f n;
    cbn [pollWhileProcessing].
  - destruct (String.eqb (rf_state f) "PROCESSING") eqn:E.
    + apply String.eqb_eq in E. split; [by split|done].
    + apply String.eqb_neq in E. split; [done|by intros [? _]].
  - destruct (String.eqb (rf_state f) "PROCESSING") eqn:E.
    + apply String.eqb_eq in E. destruct p as [f'|e].
      * rewrite IH, Forall_cons. split.
        -- intros [Hf' Hall]. split; [done|]. split; [by exists f'|done].
        -- intros [_ [(g & [= <-] & Hg) Hall]]. done.
      * split; [done|]. intros [_ Hall].
        apply Forall_cons in Hall as [(g & [=] & _) _].
    + apply String.eqb_neq in E. split; [done|by intros [? _]].
Qed.

Lemma stage_needs_logger_upload (env : Env) (videoPath : string) (s s' : State)
    (file : RemoteFile) :
  uploadVideo env videoPath s = (Returned file, s') →
  uploaded env = Returned file.
Proof.
  destruct s as [u dk [lg|] fl rel].
  - destruct (uploadVideo_run env videoPath
                {| x_uuid := u; x_disk := dk; x_logger := Some lg;
                   x_file := fl; x_released := rel |})
      as (s1 & -> & _); [by eexists|].
    by intros [= -> _].
  - run_stage. discriminate.
Qed.

(** X10: the file [uploadVideo] returns is neither PROCESSING nor FAILED;
    the wait has no bound of its own: it is still pending exactly when the
    upload resolved and every answer so far said PROCESSING. *)
Theorem X10_upload_poll (env : Env) :
  (∀ videoPath s s' file,
     uploadVideo env videoPath s = (Returned file, s') →
     rf_state file ≠ "PROCESSING" ∧ rf_state file ≠ "FAILED") ∧
  (uploaded env = Pending ↔
     ∃ f, uploadFile env = Resolves f ∧ rf_state f = "PROCESSING" ∧
          Forall saysProcessing (getFile env)).
Proof.
  split.
  - intros videoPath s s' file H%stage_needs_logger_upload.
    unfold uploaded in H. destruct (uploadFile env) as [f|e]; [|done].
    destruct (pollWhileProcessing f 0 (getFile env)) as [[file' n]|e|] eqn:E;
      [|done..].
    destruct (String.eqb (rf_state file') "FAILED") eqn:Ef; [done|].
    injection H as ->. apply pollWhileProcessing_returned in E as [E _].
    apply String.eqb_neq in Ef. done.
  - unfold uploaded. destruct (uploadFile env) as [f|e].
    + pose proof (pollWhileProcessing_pending f 0 (getFile env)) as Hp.
      destruct (pollWhileProcessing f 0 (getFile env)) as [[file' n]|e|].
      * destruct (String.eqb (rf_state file') "FAILED"); split; try done;
          intros (g & [= <-] & Hg); by apply Hp in Hg.
      * split; [done|]. intros (g & [= <-] & Hg). by apply Hp in Hg.
      * split; [|done]. intros _. exists f. split; [done|]. by apply Hp.
    + split; [done|]. by intros (g & [=] & _).
Qed.

(** The sample upload is ready at once; a stalled one is pending. *)
Lemma X10_upload_poll_witness :
  rf_state readyFile ≠ "PROCESSING" ∧ rf_state readyFile ≠ "FAILED" ∧
  uploaded stalledEnv = Pending.
Proof.
  destruct (proj1 (X10_upload_poll calmEnv) "visit.mp4" midRun
              (uploadVideo calmEnv "visit.mp4" midRun).2 readyFile)
    as [H1 H2]; [vm_compute; reflexivity|].
  split_and!; [exact H1 | exact H2 |].
  apply (proj2 (X10_upload_poll stalledEnv)).
  exists processingFile. split_and!; [reflexivity..|].
  repeat constructor; by exists processingFile.
Defined.

(** *** Frame materialisation *)

Lemma materialise_app (env : Env) (l1 l2 : list Frame) :
  materialise env (l1 ++ l2) =
  ((materialise env l1).1 ++ (materialise env l2).1,
   (materialise env l1).2 ++ (materialise env l2).2).
Proof.
  induction l1 as [|f l1 IH]; cbn [app materialise].
  - by destruct (materialise env l2).
  - rewrite IH. destruct (materialise env l1) as [ok1 ko1].
    destruct (materialise env l2) as [ok2 ko2]. cbn [fst snd].
    destruct (f_timestamp f); [destruct (extractFrameAt env f)|];
      reflexivity.
Qed.

Lemma materialise_count (env : Env) (l : list Frame) :
  (length (materialise env l).1 + length (materialise env l).2 = length l)%nat.
Proof.
  induction l as [|f l IH]; cbn [materialise]; [done|].
  destruct (materialise env l) as [ok ko]. cbn [fst snd] in IH.
  destruct (f_timestamp f); [destruct (extractFrameAt env f)|];
    cbn [fst snd length]; lia.
Qed.

Lemma materialise_written (env : Env) (l : list Frame) (g : Frame) :
  g ∈ (materialise env l).1 ↔
  ∃ f p, f ∈ l ∧ is_Some (f_timestamp f) ∧
         extractFrameAt env f = Resolves p ∧ g = written f p.
Proof.
  induction l as [|f l IH]; cbn [materialise].
  - split; [by intros ?%elem_of_nil|].
    by intros (f & p & ?%elem_of_nil & _).
  - destruct (materialise env l) as [ok ko]. cbn [fst] in IH.
    assert (Hrest : g ∈ ok →
                    ∃ f0 p, f0 ∈ f :: l ∧ is_Some (f_timestamp f0) ∧
                            extractFrameAt env f0 = Resolves p ∧
                            g = written f0 p).
    { intros (f0 & p & Hin & H) %IH. exists f0, p. split; [by right|done]. }
    destruct (f_timestamp f) as [t|] eqn:Et;
      [destruct (extractFrameAt env f) as [op|e] eqn:Ex|]; cbn [fst].
    + rewrite elem_of_cons. split.
      * intros [->|Hin]; [|by apply Hrest].
        exists f, op. split_and!; [by left|by rewrite Et|done|].
        unfold written. by rewrite Et.
      * intros (f0 & p & Hin & Hts & Hx & ->).
        apply elem_of_cons in Hin as [->|Hin].
        -- left. rewrite Ex in Hx. injection Hx as <-.
           unfold written. by rewrite Et.
        -- right. apply IH. by exists f0, p.
    + split; [by apply Hrest|].
      intros (f0 & p & Hin & Hts & Hx & ->).
      apply elem_of_cons in Hin as [->|Hin]; [congruence|].
      apply IH. by exists f0, p.
    + split; [by apply Hrest|].
      intros (f0 & p & Hin & Hts & Hx & ->).
      apply elem_of_cons in Hin as [->|Hin].
      * rewrite Et in Hts. by destruct Hts.
      * apply IH. by exists f0, p.
Qed.

(** X11: frames are materialised one by one: what happens to a frame does
    not depend on the others, every requested frame ends up either written
    or in the failure list, the written frames are exactly the requested
    frames that have a timestamp and whose extraction resolved, with the
    path filled in, and the stage returns even when no frame was written. *)
Theorem X11_materialisation_isolated (env : Env) :
  (∀ l1 l2,
     materialise env (l1 ++ l2) =
     ((materialise env l1).1 ++ (materialise env l2).1,
      (materialise env l1).2 ++ (materialise env l2).2)) ∧
  (∀ l, (length (materialise env l).1 + length (materialise env l).2
         = length l)%nat) ∧
  (∀ l g, g ∈ (materialise env l).1 ↔
          ∃ f p, f ∈ l ∧ is_Some (f_timestamp f) ∧
                 extractFrameAt env f = Resolves p ∧ g = written f p) ∧
  (∀ videoPath l dir s,
     is_Some (x_logger s) → mkdir env = Resolves () →
     ∃ s', extractFramesFromTimestamps env videoPath l dir s
           = (Returned (materialise env l).1, s')).
Proof.
  split_and!.
  - apply materialise_app.
  - apply materialise_count.
  - apply materialise_written.
  - intros videoPath l dir s Hlg Hmk.
    destruct (extractFramesFromTimestamps_run env videoPath l dir s Hlg)
      as (s' & Hrun & _).
    exists s'. rewrite Hrun. unfold materialiseOutcome. by rewrite Hmk.
Qed.

(** ffmpeg fails on every one of the ten substitute frames. *)
Lemma X11_materialisation_isolated_witness :
  ∃ s', extractFramesFromTimestamps noFrameEnv "visit.mp4" (fallbackFrames 30)
          (ImagesDir 5%nat) midRun = (Returned [], s').
Proof.
  exact (proj2 (proj2 (proj2 (X11_materialisation_isolated noFrameEnv)))
           "visit.mp4" (fallbackFrames 30) (ImagesDir 5%nat) midRun
           (ex_intro _ (Logger.new 0%nat) eq_refl) eq_refl).
Defined.

(** *** The two-pass menu stage *)

Lemma menuOutcome_of_stage (env : Env) (file : RemoteFile) (s s' : State)
    (m : MenuExtraction) :
  extractMenuTwoPass env file s = (Returned m, s') →
  menuOutcome env = Returned m.
Proof.
  destruct s as [u dk [lg|] fl rel].
  - destruct (extractMenuTwoPass_run env file
                {| x_uuid := u; x_disk := dk; x_logger := Some lg;
                   x_file := fl; x_released := rel |})
      as (s1 & -> & _); [by eexists|].
    by intros [= -> _].
  - run_stage. discriminate.
Qed.

(** X12: whatever the two-pass stage returns, an unverified menu has every
    item at confidence 0.7 and flagged; a verified menu is empty (pass 1
    found nothing) or is exactly the item list of a pass-2 response that
    parsed. *)
Theorem X12_verified_flag (env : Env) (file : RemoteFile) (s s' : State)
    (m : MenuExtraction) :
  extractMenuTwoPass env file s = (Returned m, s') →
  (me_verified m = false → defaultConfidence m) ∧
  (me_verified m = true →
     parsedWell (generatePass1 env) ∧
     ((pass1Items env = [] ∧ me_items m = []) ∨
      (pass1Items env ≠ [] ∧
       ∃ t p, generatePass2 env (pass1Items env)
                = Resolves {| text := t; parsed := WellFormed p |} ∧
              me_items m = default [] (pm_items p)))).
Proof.
  intros H%menuOutcome_of_stage. unfold menuOutcome, pass1Items in *.
  destruct (generatePass1 env) as [[t [p|msg]]|e]; cbn in H |- *; [| |done].
  - destruct (default [] (pm_items p)) as [|i items] eqn:Ei; cbn in H.
    + injection H as <-. cbn. split; [done|]. intros _.
      split; [by exists t, p|]. by left.
    + destruct (generatePass2 env (i :: items)) as [[t2 [p2|msg2]]|e2];
        injection H as <-; cbn.
      * split; [done|]. intros _. split; [by exists t, p|]. right.
        split; [done|]. by exists t2, p2.
      * split; [|done]. intros _. split; [|done].
        apply (Forall_fmap _ _ (i :: items)), Forall_forall. done.
      * split; [|done]. intros _. split; [|done].
        apply (Forall_fmap _ _ (i :: items)), Forall_forall. done.
  - injection H as <-. cbn. split; [|done]. intros _. split; [|done].
    constructor.
Qed.

(** Pass 2 rejected: unverified, two items at the default confidence. *)
Lemma X12_verified_flag_witness :
  defaultConfidence
    {| me_items := withDefaultConfidence <$>
                     [rawDish "Margherita"; rawDish "Lasagne"];
       me_verified := false;
       me_menuStyleNotes := Some "Chalkboard menu" |}.
Proof.
  apply (proj1 (X12_verified_flag pass2Down readyFile midRun
                  (extractMenuTwoPass pass2Down readyFile midRun).2 _
                  eq_refl)).
  reflexivity.
Defined.

(** *** Cleanup of the uploaded file *)

Lemma cleanup_exact (env : Env) (file : RemoteFile) (s : State) :
  cleanup env file s =
  (Returned (),
   {| x_uuid := x_uuid s; x_disk := x_disk s; x_logger := x_logger s;
      x_file := x_file s;
      x_released := if rejects (deleteFile env) then x_released s
                    else rf_name file :: x_released s |}).
Proof.
  destruct s as [u dk lgo fl rel].
  unfold cleanup, try_catch, bind, await, ret.
  destruct (deleteFile env); reflexivity.
Qed.

Ltac stage_released :=
  match goal with
  | |- context [cleanup ?e ?f ?S] => rewrite (cleanup_exact e f S); eval_js
  | _ => stage
  end.

(** The stages after the upload settle. *)
Ltac no_pending :=
  exfalso;
  match goal with
  | H : framesOutcome ?e (vm_duration ?m) = Pending |- _ =>
      destruct (framesOutcome_cases e m) as [(? & ? & ?)|(? & ? & ?)]
  | H : menuOutcome ?e = Pending |- _ =>
      destruct (menuOutcome_cases e) as [(? & ? & ?)|(? & ? & ?)]
  | H : infoOutcome ?e = Pending |- _ =>
      destruct (infoOutcome_cases e) as [(? & ? & ?)|(? & ?)]
  | H : styleOutcome ?e ?i = Pending |- _ =>
      destruct (styleOutcome_cases e i) as [(? & ? & ?)|(? & ? & ?)]
  | H : materialiseOutcome ?e ?l = Pending |- _ =>
      destruct (materialiseOutcome_cases e l) as [(? & ? & ?)|(? & ? & ?)]
  end; congruence.

Lemma extract_released (env : Env) (videoPath : string) (options : Options)
    (s : State) :
  x_released (extract env videoPath options s).2 =
  match uploaded env with
  | Returned file =>
      if rejects (deleteFile env) then x_released s
      else rf_name file :: x_released s
  | _ => x_released s
  end.
Proof.
  destruct s as [u dk lg0 fl rel].
  unfold extract, new_logger, logger_save, set_file, promise_all3, try_finally,
    try_catch, startStep, step_complete, step_fail, on_logger, bind, ret,
    throw, await, uuidv4.
  eval_js. repeat first [stage_released | case_outcome].
  all: first [reflexivity | no_pending].
Qed.



(** *** What the caller of [extractWithFallback] gets *)

(** The metadata of a primary run: the video path, never [usedFallback]. *)
Lemma extract_metadata (env : Env) (videoPath : string) (options : Options)
    (s : State) :
  ∃ lg,
    x_logger (extract env videoPath options s).2 = Some lg ∧
    metadata lg !! "usedFallback" = None ∧
    metadata lg !! "videoPath" = Some (MStr videoPath).
Proof.
  destruct s as [u dk lg0 fl rel].
  unfold extract, new_logger, logger_save, set_file, promise_all3, try_finally,
    try_catch, startStep, step_complete, step_fail, on_logger, bind, ret,
    throw, await, uuidv4.
  eval_js. repeat first [stage | case_outcome].
  all: eexists; split; [reflexivity|]; split; reflexivity.
Qed.

Lemma extractWithFallback_cases (env : Env) (videoPath : string)
    (options : Options) (s : State) :
  ∃ lg1 s1,
    extract env videoPath options s = (primaryOutcome env, s1) ∧
    x_logger s1 = Some lg1 ∧ runId lg1 = x_uuid s ∧
    (x_uuid s < x_uuid s1)%nat ∧
    match primaryOutcome env with
    | Returned res =>
        extractWithFallback env videoPath options s
          = (Returned (res, Some (x_uuid s)), s1) ∧
        status lg1 = completed ∧ result lg1 = Some res ∧
        quality lg1 = Some (assessQuality res) ∧
        d_runs (x_disk s1) = <[x_uuid s := lg1]> (d_runs (x_disk s))
    | Pending =>
        extractWithFallback env videoPath options s = (Pending, s1) ∧
        status lg1 = running ∧ x_disk s1 = x_disk s
    | Threw e =>
        ∃ lg2 s2,
          extractWithFallback env videoPath options s =
            (match fallbackOutcome env videoPath options with
             | Returned res => Returned (res, Some (x_uuid s1))
             | Threw e2 => Threw e2
             | Pending => Pending
             end, s2) ∧
          x_logger s2 = Some lg2 ∧ runId lg2 = x_uuid s1 ∧
          metadata lg2 !! "usedFallback" = Some (MBool true) ∧
          metadata lg2 !! "nativeError" = Some (MStr e) ∧
          d_runs (x_disk s2)
            = <[x_uuid s1 := lg2]> (<[x_uuid s := lg1]> (d_runs (x_disk s))) ∧
          status lg1 = failed ∧ error lg1 = Some e ∧
          match fallbackOutcome env videoPath options with
          | Returned res =>
              status lg2 = completed ∧ result lg2 = Some res ∧
              quality lg2 = Some (assessQuality res)
          | Threw e2 => status lg2 = failed ∧ error lg2 = Some e2
          | Pending => False
          end
    end.
Proof.
  destruct (extract_run env videoPath options s)
    as (lg & s1 & Hrun & Hlg & Hid & Hlt & Hout).
  exists lg, s1. split_and!; try done.
  unfold extractWithFallback, try_catch, bind, new_logger, on_logger,
    logger_save, throw, getRunId.
  rewrite Hrun.
  destruct (primaryOutcome env) as [res|e|].
  - destruct Hout as (Hst & Hres & Hq & Hd). rewrite Hlg. cbn. by rewrite Hid.
  - destruct Hout as (Hst & Herr & Hdisk).
    destruct (fallbackOutcome_settles env videoPath options) as [Hnp _].
    destruct s1 as [u1 dk1 lg1 fl1 rel1]. cbn in *. subst lg1.
    eval_js. rewrite extractFrameBased_pure.
    destruct (fallbackOutcome env videoPath options) as [res|e2|];
      [| |done]; eval_js.
    + do 2 eexists. split; [reflexivity|]. eval_js. rewrite Hdisk.
      split_and!; done.
    + do 2 eexists. split; [reflexivity|]. eval_js. rewrite Hdisk.
      split_and!; done.
  - destruct Hout as (Hst & Hd). done.
Qed.

(** X14: when the primary pipeline returns, [extractWithFallback] does
    what [extract] does and nothing more: the same result, the identifier
    of the one run created, the same state (no second run, no fallback). *)
Theorem X14_no_fallback_on_success (env : Env) (videoPath : string)
    (options : Options) (s : State) (res : ExtractionResult) :
  (extract env videoPath options s).1 = Returned res →
  extractWithFallback env videoPath options s =
    (Returned (res, Some (x_uuid s)), (extract env videoPath options s).2) ∧
  primaryThrows env = false.
Proof.
  intros Hret.
  destruct (extractWithFallback_cases env videoPath options s)
    as (lg1 & s1 & Hrun & _ & _ & _ & Hcase).
  pose proof (primaryThrows_spec env) as Hthrows.
  rewrite Hrun in Hret |- *. cbn [fst snd] in *. rewrite Hret in Hcase, Hthrows.
  by destruct Hcase as (-> & _).
Qed.

(** The sample answers: one run, identifier 0. *)
Lemma X14_no_fallback_on_success_witness :
  ∃ res, extractWithFallback calmEnv "visit.mp4" sampleOptions initial =
         (Returned (res, Some 0%nat),
          (extract calmEnv "visit.mp4" sampleOptions initial).2).
Proof.
  destruct (primaryOutcome calmEnv) as [res| |] eqn:E;
    [|vm_compute in E; discriminate E..].
  exists res.
  apply (X14_no_fallback_on_success calmEnv "visit.mp4" sampleOptions initial
           res).
  destruct (extract_finalStatus calmEnv "visit.mp4" sampleOptions initial)
    as [-> _].
  exact E.
Defined.

(** X15: the identifier handed to the caller names a completed record of
    the ledger that holds the very result returned, with its quality
    report; the record is marked [usedFallback] exactly when the primary
    pipeline threw. *)
Theorem X15_returned_run_on_ledger (env : Env) (videoPath : string)
    (options : Options) (s s' : State) (res : ExtractionResult)
    (rid : option Uuid) :
  extractWithFallback env videoPath options s = (Returned (res, rid), s') →
  ∃ id lg,
    rid = Some id ∧ (x_uuid s ≤ id)%nat ∧
    Logger.load id (x_disk s') = Some lg ∧
    runId lg = id ∧ status lg = completed ∧ result lg = Some res ∧
    quality lg = Some (assessQuality res) ∧ isComplete res ∧
    (metadata lg !! "usedFallback" = Some (MBool true) ↔
     primaryThrows env = true).
Proof.
  intros Hret.
  destruct (extractWithFallback_cases env videoPath options s)
    as (lg1 & s1 & Hrun & Hlg1 & Hid1 & Hlt & Hcase).
  pose proof (primaryThrows_spec env) as Hthrows.
  destruct (extract_run env videoPath options s)
    as (lg0 & s0 & Hrun0 & Hlg0 & _ & _ & Hout0).
  rewrite Hrun in Hrun0. injection Hrun0 as <-. rewrite Hlg1 in Hlg0.
  injection Hlg0 as <-.
  destruct (primaryOutcome env) as [res1|e|] eqn:Hp.
  - destruct Hcase as (Hwf & Hst & Hres & Hq & Hd).
    rewrite Hwf in Hret. injection Hret as <- <- <-.
    exists (x_uuid s), lg1. unfold Logger.load. rewrite Hd, lookup_insert_eq.
    split_and!; try done.
    + apply primaryOutcome_returned in Hp
        as (? & ? & ? & ? & ? & _ & _ & _ & _ & _ & _ & ->).
      repeat split; by eexists.
    + split; [|by rewrite Hthrows].
      (* the metadata of a primary run never holds usedFallback *)
      intros Hmeta. exfalso.
      destruct (extract_metadata env videoPath options s)
        as (lg & Hl & Hnone & _).
      rewrite Hrun in Hl. cbn [snd] in Hl. congruence.
  - destruct Hcase
      as (lg2 & s2 & Hwf & Hlg2 & Hid2 & Hused & _ & Hd & _ & _ & Hfb).
    destruct (fallbackOutcome_settles env videoPath options) as [_ Hcomplete].
    rewrite Hwf in Hret.
    destruct (fallbackOutcome env videoPath options) as [res2|e2|] eqn:Hf;
      [| |done].
    + destruct Hfb as (Hst & Hres & Hq).
      injection Hret as <- <- <-.
      exists (x_uuid s1), lg2. unfold Logger.load.
      rewrite Hd, lookup_insert_eq.
      split_and!; try done; try lia. by apply Hcomplete.
    + discriminate.
  - destruct Hcase as (Hwf & _). rewrite Hwf in Hret. discriminate.
Qed.

(** After the failed frame selection the caller gets run 7, a fallback. *)
Lemma X15_returned_run_on_ledger_witness :
  ∃ id lg,
    Some 7%nat = Some id ∧ (0 ≤ id)%nat ∧
    Logger.load id
      (x_disk (extractWithFallback framesDown "visit.mp4" sampleOptions
                 initial).2) = Some lg ∧
    runId lg = id ∧ status lg = completed ∧ result lg = Some legacyResult ∧
    quality lg = Some (assessQuality legacyResult) ∧
    isComplete legacyResult ∧
    (metadata lg !! "usedFallback" = Some (MBool true) ↔
     primaryThrows framesDown = true).
Proof.
  apply (X15_returned_run_on_ledger framesDown "visit.mp4" sampleOptions
           initial
           (extractWithFallback framesDown "visit.mp4" sampleOptions initial).2
           legacyResult (Some 7%nat)).
  vm_compute. reflexivity.
Defined.

(** X16: while the readiness poll of the upload is pending,
    [extractWithFallback] is pending too: nothing has been written to the
    ledger, no fallback has been tried, the uploaded file has not been
    released, and the run at hand is still marked running. *)
Theorem X16_pending_upload (env : Env) (videoPath : string)
    (options : Options) (s : State) :
  uploaded env = Pending →
  (extractWithFallback env videoPath options s).1 = Pending ∧
  x_disk (extractWithFallback env videoPath options s).2 = x_disk s ∧
  x_released (extractWithFallback env videoPath options s).2 = x_released s ∧
  finalStatus (extractWithFallback env videoPath options s).2
    = Some running ∧
  getRunId (extractWithFallback env videoPath options s).2
    = Some (x_uuid s).
Proof.
  intros Hup.
  destruct (extractWithFallback_cases env videoPath options s)
    as (lg1 & s1 & Hrun & Hlg1 & Hid1 & Hlt & Hcase).
  pose proof (extract_released env videoPath options s) as Hrel.
  rewrite Hrun, Hup in Hrel. cbn [snd] in Hrel.
  assert (Hp : primaryOutcome env = Pending).
  { unfold primaryOutcome. by rewrite Hup. }
  rewrite Hp in Hcase. destruct Hcase as (-> & Hst & Hd). cbn [fst snd].
  split_and!; [done..| |].
  - unfold finalStatus. rewrite Hlg1. cbn. by rewrite Hst.
  - unfold getRunId. rewrite Hlg1. cbn. by rewrite Hid1.
Qed.

(** The stalled upload: nothing on disk, run 0 still running. *)
Lemma X16_pending_upload_witness :
  (extractWithFallback stalledEnv "visit.mp4" sampleOptions initial).1
    = Pending ∧
  x_disk (extractWithFallback stalledEnv "visit.mp4" sampleOptions initial).2
    = emptyDisk ∧
  x_released
    (extractWithFallback stalledEnv "visit.mp4" sampleOptions initial).2
    = [] ∧
  finalStatus
    (extractWithFallback stalledEnv "visit.mp4" sampleOptions initial).2
    = Some running ∧
  getRunId (extractWithFallback stalledEnv "visit.mp4" sampleOptions initial).2
    = Some 0%nat.
Proof.
  apply (X16_pending_upload stalledEnv "visit.mp4" sampleOptions initial).
  reflexivity.
Defined.

(** ** The step log *)










#[local] Arguments framesOutcome : simpl never.










(** ** Frame-based analysis *)

(** Entries looked up at increasing positions form a subsequence. *)
Lemma lookups_sublist {A} (l : list A) (f : nat → nat) (m : nat) :
  (∀ i j, (i < j)%nat → (j < m)%nat → (f i < f j)%nat) →
  (∀ i, (i < m)%nat → (f i < length l)%nat) →
  ∃ sub,
    (λ i, l !! f i) <$> seq 0 m = Some <$> sub ∧
    length sub = m ∧
    ∀ b, (∀ i, (i < m)%nat → (f i < b)%nat) → sub `sublist_of` take b l.
Proof.
  induction m as [|m IH]; intros Hmono Hin.
  - exists []. split_and!; [done..|]. intros b _. apply sublist_nil_l.
  - destruct IH as (sub & Hmap & Hlen & Hsub).
    { intros i j ? ?. apply Hmono; lia. }
    { intros i ?. apply Hin. lia. }
    destruct (lookup_lt_is_Some_2 l (f m)) as [x Hx]; [apply Hin; lia|].
    exists (sub ++ [x]). split_and!.
    + rewrite seq_S, !fmap_app, Hmap. cbn. by rewrite Hx.
    + rewrite length_app. cbn. lia.
    + intros b Hb.
      assert (Hfm : (f m < b)%nat) by (apply Hb; lia).
      transitivity (take (S (f m)) l).
      * rewrite (take_S_r _ _ x Hx). apply sublist_app; [|done].
        apply Hsub. intros i ?. apply Hmono; lia.
      * replace (take (S (f m)) l) with (take (S (f m)) (take b l)).
        -- apply sublist_take.
        -- rewrite take_take. f_equal. lia.
Qed.

Section DistributedIndex.
Variables n m : nat.
Hypothesis Hm : (0 < m)%nat.
Hypothesis Hnm : (m < n)%nat.

Lemma step_ge_1 : 1 <= num n / num m.
Proof.
apply Qle_shift_div_l; [by apply num_pos|].
apply num_lt_mono, Qlt_le_weak in Hnm. lra.
Qed.

Lemma step_total : num m * (num n / num m) == num n.
Proof.
field. intros H. pose proof (num_pos m Hm) as Hp. rewrite H in Hp.
by apply Qlt_irrefl in Hp.
Qed.

Lemma frameIndex_floor (i : nat) :
Z.of_nat (frameIndex n m i) = Qfloor (num i * (num n / num m)).
Proof.
unfold frameIndex. apply Z2Nat.id.
change 0%Z with (Qfloor 0). apply Qfloor_resp_le.
pose proof step_ge_1. pose proof (num_nonneg i). nra.
Qed.

Lemma frameIndex_mono (i j : nat) :
(i < j)%nat → (frameIndex n m i < frameIndex n m j)%nat.
Proof.
intros Hij. apply Nat2Z.inj_lt. rewrite !frameIndex_floor.
set (x := num i * (num n / num m)). set (y := num j * (num n / num m)).
assert (Hxy : x + 1 <= y).
{ subst x y. pose proof step_ge_1 as Hs.
  assert (Hi : num i + 1 <= num j).
  { rewrite <- num_S. apply num_le_mono. lia. }
  pose proof (num_nonneg i). nra. }
pose proof (Qfloor_le x) as Hx. pose proof (Qlt_floor y) as Hy.
assert (H : inject_Z (Qfloor x) + 1 < inject_Z (Qfloor y + 1)) by lra.
rewrite inject_Z_plus in H. change (inject_Z 1) with 1 in H.
rewrite Zlt_Qlt. lra.
Qed.

Lemma frameIndex_in_range (i : nat) :
(i < m)%nat → (frameIndex n m i < n)%nat.
Proof.
intros Him. apply Nat2Z.inj_lt. rewrite frameIndex_floor.
set (x := num i * (num n / num m)).
assert (Hx : x < num n).
{ subst x. pose proof step_ge_1 as Hs. pose proof step_total as Ht.
  assert (Hi : num i + 1 <= num m).
  { rewrite <- num_S. apply num_le_mono. lia. }
  nra. }
pose proof (Qfloor_le x) as Hf.
rewrite Zlt_Qlt. fold (num n). lra.
Qed.

Lemma frameIndex_0 : frameIndex n m 0 = 0%nat.
Proof.
unfold frameIndex. change (num 0%nat) with 0.
replace (Qfloor (0 * (num n / num m))) with (Qfloor 0); [done|].
apply Qfloor_comp. ring.
Qed.

End DistributedIndex.

(** X18: the selection is a subsequence of the frames (entries of the
    input, in their order, no position twice, none absent), of length
    min(frames.length, maxCount), and it starts with the first frame. *)
Theorem X18_distributed_frames {A} (frames : list A) (maxCount : nat) :
  ∃ sub,
    GeminiVision.selectDistributedFrames frames maxCount = Some <$> sub ∧
    sub `sublist_of` frames ∧
    length sub = (length frames `min` maxCount)%nat ∧
    (maxCount ≠ 0%nat → head sub = head frames).
Proof.
  unfold GeminiVision.selectDistributedFrames.
  destruct (Nat.leb_spec (length frames) maxCount) as [Hle|Hlt].
  - exists frames. split_and!; [done..|lia|done].
  - destruct maxCount as [|k].
    + exists []. split_and!; [done|apply sublist_nil_l|cbn; lia|done].
    + set (m := S k) in *.
      assert (Hm : (0 < m)%nat) by (subst m; lia).
      destruct (lookups_sublist frames (frameIndex (length frames) m) m)
        as (sub & Hmap & Hlen & Hsub).
      { intros i j ? _. by apply frameIndex_mono. }
      { intros i ?. by apply frameIndex_in_range. }
      exists sub. split_and!.
      * exact Hmap.
      * specialize (Hsub (length frames)).
        rewrite take_ge in Hsub by lia.
        apply Hsub. intros i ?. by apply frameIndex_in_range.
      * lia.
      * intros _. subst m.
        destruct sub as [|x sub']; [done|].
        cbn [seq fmap list_fmap] in Hmap. injection Hmap as Hx _.
        rewrite frameIndex_0 in Hx. cbn. rewrite <- Hx.
        by destruct frames.
Qed.

Lemma selectDistributedFrames_length {A} (frames : list A) (maxCount : nat) :
  length (GeminiVision.selectDistributedFrames frames maxCount)
    = (length frames `min` maxCount)%nat.
Proof.
  unfold GeminiVision.selectDistributedFrames.
  destruct (Nat.leb_spec (length frames) maxCount).
  - rewrite length_fmap. lia.
  - rewrite length_fmap, length_seq. lia.
Qed.

Lemma X18_distributed_frames_witness :
  ∃ sub,
    GeminiVision.selectDistributedFrames (seq 0 20) 15 = Some <$> sub ∧
    sub `sublist_of` seq 0 20 ∧
    length sub = 15%nat ∧
    head sub = Some 0%nat.
Proof.
  destruct (X18_distributed_frames (seq 0 20) 15) as (sub & H1 & H2 & H3 & H4).
  exists sub. split_and!; [exact H1|exact H2|exact H3|].
  apply H4. discriminate.
Defined.

(** What the frame-based pipeline, run over the code of gemini-vision.js,
    makes of the answers of its two collaborators. *)
Lemma vision_fallbackOutcome
    (analyzeImages : list (option string) → Remote (Response Extracted))
    (env : Env) (videoPath : string) (options : Options) :
  fallbackOutcome (withVision analyzeImages env) videoPath options =
  match extractFrames env with
  | Rejects e => Threw e
  | Resolves frames =>
      match analyzeImages (GeminiVision.selectDistributedFrames frames 15) with
      | Rejects e => Threw e
      | Resolves response =>
          match parsed response with
          | Malformed msg =>
              Threw ("Failed to parse restaurant data: " +:+ msg)
          | WellFormed (Misshapen msg) => Threw msg
          | WellFormed (Shaped d) =>
              fallbackOutcome
                (withVision (λ _, Resolves response) env) videoPath options
          end
      end
  end.
Proof.
  unfold fallbackOutcome, extractFrameBased, convertible, bind, await, ret,
    throw.
  cbn [extractFrames extractRestaurantData withVision].
  unfold GeminiVision.extractRestaurantData.
  destruct (extractFrames env) as [frames|e]; cbn; [|done].
  destruct (analyzeImages _) as [[txt [[d|msg]|msg]]|e]; cbn; done.
Qed.

(** X19: over the code of gemini-vision.js, and once the primary pipeline
    has thrown, [extractWithFallback] throws when the local frame extraction
    rejects, when the analysis call rejects, when the model's answer does
    not parse, and when it parses to a value the conversion cannot read.  A
    parse failure is not absorbed, as it is in the primary stages: it
    surfaces as "Failed to parse restaurant data: ...", and the TypeError of
    the conversion surfaces as it is.  The analysis is given at most 15
    frames.  Whatever error is thrown is the error of the second run, which
    is saved as failed. *)
Theorem X19_fallback_parse_failure
    (analyzeImages : list (option string) → Remote (Response Extracted))
    (env : Env) (videoPath : string) (options : Options) (s : State)
    (e : string) :
  (extract (withVision analyzeImages env) videoPath options s).1 = Threw e →
  (∀ e2,
     extractFrames env = Rejects e2 →
     (extractWithFallback (withVision analyzeImages env) videoPath options s).1
       = Threw e2) ∧
  (∀ frames,
     extractFrames env = Resolves frames →
     (length (GeminiVision.selectDistributedFrames frames 15) ≤ 15)%nat ∧
     (∀ e2,
        analyzeImages (GeminiVision.selectDistributedFrames frames 15)
          = Rejects e2 →
        (extractWithFallback (withVision analyzeImages env)
           videoPath options s).1 = Threw e2) ∧
     (∀ response msg,
        analyzeImages (GeminiVision.selectDistributedFrames frames 15)
          = Resolves response →
        parsed response = Malformed msg →
        (extractWithFallback (withVision analyzeImages env)
           videoPath options s).1
          = Threw ("Failed to parse restaurant data: " +:+ msg)) ∧
     (∀ response msg,
        analyzeImages (GeminiVision.selectDistributedFrames frames 15)
          = Resolves response →
        parsed response = WellFormed (Misshapen msg) →
        (extractWithFallback (withVision analyzeImages env)
           videoPath options s).1 = Threw msg)) ∧
  (∀ e2,
     (extractWithFallback (withVision analyzeImages env) videoPath options s).1
       = Threw e2 →
     ∃ run2,
       x_logger
         (extractWithFallback (withVision analyzeImages env)
            videoPath options s).2 = Some run2 ∧
       status run2 = failed ∧ error run2 = Some e2 ∧
       d_runs
         (x_disk (extractWithFallback (withVision analyzeImages env)
                    videoPath options s).2) !! runId run2 = Some run2).
Proof.
  intros Hthrew.
  destruct (extractWithFallback_cases (withVision analyzeImages env)
              videoPath options s)
    as (lg1 & s1 & Hrun & Hlg1 & Hid1 & Hlt & Hcases).
  rewrite Hrun in Hthrew. cbn [fst] in Hthrew. rewrite Hthrew in Hcases.
  destruct Hcases
    as (lg2 & s2 & Hwf & Hlg2 & Hid2 & _ & _ & Hdisk & _ & _ & Hfb).
  rewrite Hwf. cbn [fst snd].
  pose proof (vision_fallbackOutcome analyzeImages env videoPath options)
    as Hout.
  split_and!.
  - intros e2 He. rewrite Hout, He. done.
  - intros frames Hf. rewrite Hout, Hf. split_and!.
    + rewrite selectDistributedFrames_length. lia.
    + intros e2 ->. done.
    + intros response msg -> ->. done.
    + intros response msg -> ->. done.
  - intros e2 He2.
    destruct (fallbackOutcome (withVision analyzeImages env) videoPath options)
      as [res|e3|]; [done| |done].
    injection He2 as ->. destruct Hfb as (? & ?).
    exists lg2. split_and!; [done..|].
    rewrite Hdisk, Hid2. apply lookup_insert_eq.
Qed.

Lemma X19_fallback_parse_failure_witness :
  (extractWithFallback proseEnv "visit.mp4" sampleOptions initial).1
    = Threw "Failed to parse restaurant data: Unexpected token S in JSON at position 0".
Proof.
  refine (proj1 (proj2 (proj2
            (proj1 (proj2
               (X19_fallback_parse_failure (λ _, Resolves proseAnswer)
                  framesDown "visit.mp4" sampleOptions initial
                  "503 Service Unavailable" _))
               ["frame_0001.jpg"; "frame_0002.jpg"] eq_refl)))
            proseAnswer "Unexpected token S in JSON at position 0"
            eq_refl eq_refl).
  vm_compute. reflexivity.
Defined.

(** ** The MIME type sent with the upload *)

Lemma split_nonempty (sep : Ascii.ascii) (s : string) : JsString.split sep s ≠ [].
Proof.
  induction s as [|c r IH]; cbn [JsString.split]; [done|].
  destruct (Ascii.eqb c sep); [done|].
  by destruct (JsString.split sep r).
Qed.

(** [(p + sep + e).split(sep)] is [p.split(sep)] followed by
    [e.split(sep)]. *)
Lemma split_app (sep : Ascii.ascii) (p e : string) :
  JsString.split sep (p ++ String sep e)%string
    = JsString.split sep p ++ JsString.split sep e.
Proof.
  induction p as [|c p IH].
  - change (EmptyString +:+ String sep e) with (String sep e).
    cbn [JsString.split app]. by rewrite Ascii.eqb_refl.
  - change (String c p +:+ String sep e) with (String c (p +:+ String sep e)).
    cbn [JsString.split app].
    destruct (Ascii.eqb c sep); [by rewrite IH|].
    rewrite IH.
    pose proof (split_nonempty sep p).
    by destruct (JsString.split sep p).
Qed.

Lemma split_dotless (e : string) :
  dotless e = true → JsString.split dot e = [e].
Proof.
  induction e as [|c r IH]; cbn [JsString.split dotless]; [done|].
  intros [Hc Hr]%andb_prop. apply negb_true_iff in Hc. rewrite Hc.
  by rewrite (IH Hr).
Qed.

Lemma lower_idemp (c : Ascii.ascii) : JsString.lower (JsString.lower c) = JsString.lower c.
Proof. by destruct c as [[] [] [] [] [] [] [] []]. Qed.

Lemma lower_dot (c : Ascii.ascii) :
  Ascii.eqb (JsString.lower c) dot = Ascii.eqb c dot.
Proof. by destruct c as [[] [] [] [] [] [] [] []]. Qed.

Lemma toLowerCase_idemp (s : string) :
  JsString.toLowerCase (JsString.toLowerCase s) = JsString.toLowerCase s.
Proof. induction s as [|c r IH]; cbn; [done|]. by rewrite lower_idemp, IH. Qed.

Lemma toLowerCase_dotless (s : string) :
  dotless (JsString.toLowerCase s) = dotless s.
Proof. induction s as [|c r IH]; cbn; [done|]. by rewrite lower_dot, IH. Qed.

Lemma extension_dotless (e : string) :
  dotless e = true → extension e = JsString.toLowerCase e.
Proof. intros H. unfold extension. by rewrite split_dotless. Qed.

Lemma extension_app (p e : string) :
  extension (p ++ String dot e)%string = extension e.
Proof.
  unfold extension. rewrite split_app, last_app.
  pose proof (split_nonempty dot e) as H. apply last_is_Some in H.
  by destruct H as [x ->].
Qed.

Lemma mimeTypes_values (ext m : string) :
  mimeTypes !! ext = Some m →
  truthy (Some m) = true ∧
  (ext, m) ∈ [ ("mp4", "video/mp4"); ("mov", "video/quicktime");
               ("avi", "video/x-msvideo"); ("webm", "video/webm");
               ("mkv", "video/x-matroska") ].
Proof.
  unfold mimeTypes. intros H.
  repeat (apply lookup_insert_Some in H as [[<- <-]|[_ H]];
          [split; [done|set_solver]|]).
  apply lookup_singleton_Some in H as [<- <-]. split; [done|set_solver].
Qed.

(** The inherited names a lower-case key can hit. *)
Lemma lowercase_inherited (ext : string) :
  JsString.toLowerCase ext = ext → ext ∈ objectPrototype →
  ext ∈ ["constructor"; "__proto__"].
Proof.
  intros Hlow Hin. unfold objectPrototype in Hin.
  repeat (apply elem_of_cons in Hin as [->|Hin];
          [first [set_solver | by vm_compute in Hlow]|]).
  by apply elem_of_nil in Hin.
Qed.

(** X20: the MIME type depends on nothing but the text after the last dot
    of the path, whatever its case (a name without a dot counts as its own
    extension).  It is the table's entry for the lower-cased extension, and
    ["video/mp4"] for an extension the table does not have, with one
    exception: for the extensions [constructor] and [__proto__] the lookup
    finds an inherited member of the object and the result is no string. *)
Theorem X20_mime_type (dir ext : string) :
  dotless ext = true →
  _getMimeType (dir +:+ "." +:+ ext) = _getMimeType ext ∧
  _getMimeType (JsString.toLowerCase ext) = _getMimeType ext ∧
  match _getMimeType ext with
  | Mime m =>
      (JsString.toLowerCase ext, m)
        ∈ [ ("mp4", "video/mp4"); ("mov", "video/quicktime");
            ("avi", "video/x-msvideo"); ("webm", "video/webm");
            ("mkv", "video/x-matroska") ] ∨
      (m = "video/mp4" ∧ mimeTypes !! JsString.toLowerCase ext = None ∧
       JsString.toLowerCase ext ∉ ["constructor"; "__proto__"])
  | Inherited key =>
      key = JsString.toLowerCase ext ∧ key ∈ ["constructor"; "__proto__"]
  end.
Proof.
  intros Hdot. split_and!.
  - change ("." +:+ ext) with (String dot ext).
    unfold _getMimeType. by rewrite extension_app.
  - unfold _getMimeType.
    rewrite !extension_dotless, ?toLowerCase_idemp;
      [done|done|by rewrite toLowerCase_dotless].
  - unfold _getMimeType. rewrite extension_dotless by done.
    destruct (mimeTypes !! JsString.toLowerCase ext) as [m|] eqn:Hm.
    + apply mimeTypes_values in Hm as [-> Hm]. by left.
    + case_bool_decide as Hin.
      * split; [done|].
        apply lowercase_inherited; [apply toLowerCase_idemp|done].
      * right. split_and!; [done..|].
        intros Hin'. apply Hin. unfold objectPrototype.
        apply elem_of_cons in Hin' as [->|Hin']; [apply list_elem_of_here|].
        apply list_elem_of_singleton in Hin' as ->.
        apply list_elem_of_further, list_elem_of_here.
Qed.

Lemma X20_mime_type_witness :
  _getMimeType "uploads/2024.06/visit.MOV" = Mime "video/quicktime".
Proof.
  etrans;
    [exact (proj1 (X20_mime_type "uploads/2024.06/visit" "MOV" eq_refl))|].
  vm_compute. reflexivity.
Defined.
